(** * Word/speaker alignment of [app.py]

    A shallow embedding of the alignment part of [transcribe_audio]
    (app.py, lines 82-151): the collection of the Whisper words, the
    loop over the diarization tracks with its closure
    [add_speaker_segment], the branch taken when diarization is off,
    and the values placed in the JSON response; and of the route around
    it (lines 31-159): the checks of the upload, the temporary file, the
    loading of the diarization pipeline into the module variable, and
    the replies on errors.

    Python values are modelled as follows.
    - [str] is a list of Unicode code points; [strip], [join] and
      [endswith] follow the [str] methods of the same names.
    - the times and probabilities are binary64 floats, compared with
      the IEEE comparisons ([a >= b] is [PrimFloat.leb b a]).
    - the dictionaries built with fixed keys are records.
    - the variables captured and mutated by the closure
      [add_speaker_segment] are the fields of [Frame], passed
      explicitly from one statement to the next.
    - the result of the diarization pipeline is the list of its tracks,
      each with its segment, the name of the track and its label:
      [itertracks(yield_label=True)] yields these three values, and the
      two names of line 114 unpack an item of two only. [alignment],
      [answer] and the route are the code as it runs, where this
      unpacking raises; [diarized] and [respond] are the loop and the
      response on items already unpacked into
      [(speech_segment, speaker_label)], and every response of [answer]
      is one of [respond].
    - a call that can raise returns a sum, the message of the exception
      on the left. *)

From Stdlib Require Import Ascii String List Bool Arith NArith Lia Floats.
From Stdlib Require Import DecimalString.
Import ListNotations.

Set Warnings "-inexact-float".

(** ** Python strings *)

Definition char := N.
Definition str := list char.

(** A literal, given by its (ASCII) characters. *)
Definition py (s : string) : str :=
  List.map N_of_ascii (list_ascii_of_string s).
Arguments py s%_string.

(** The literal ["\n"]. *)
Definition LF : str := [10%N].

(** [str.isspace] on one code point (the table of
    [_PyUnicode_IsWhitespace]). *)
Definition isspace (c : char) : bool :=
  ((9 <=? c) && (c <=? 13) || (28 <=? c) && (c <=? 32)
   || (c =? 133) || (c =? 160) || (c =? 5760)
   || (8192 <=? c) && (c <=? 8202)
   || (c =? 8232) || (c =? 8233) || (c =? 8239) || (c =? 8287)
   || (c =? 12288))%N.

Fixpoint lstrip (s : str) : str :=
  match s with
  | [] => []
  | c :: s' => if isspace c then lstrip s' else s
  end.

Definition rstrip (s : str) : str := rev (lstrip (rev s)).

(** [s.strip()] *)
Definition strip (s : str) : str := rstrip (lstrip s).

(** [sep.join(parts)] *)
Fixpoint join (sep : str) (parts : list str) : str :=
  match parts with
  | [] => []
  | [p] => p
  | p :: ps => p ++ sep ++ join sep ps
  end.

Definition str_eqb (a b : str) : bool :=
  if list_eq_dec N.eq_dec a b then true else false.

(** [s.endswith(suffix)] *)
Definition endswith (s suffix : str) : bool :=
  (length suffix <=? length s)%nat
  && str_eqb (skipn (length s - length suffix) s) suffix.

(** Truth value of a string or of a list: non-empty. *)
Definition truthy {A : Type} (l : list A) : bool :=
  match l with [] => false | _ :: _ => true end.

(** [f"{x}"] for a value that is [None] or a string. *)
Definition format (x : option str) : str :=
  match x with
  | None => py "None"
  | Some s => s
  end.

(** ** The data of one request *)

(** A word as yielded by the transcription ([segment.words]). *)
Module WhisperWord.
Record t := make {
  word : str; start : float; end_ : float; probability : float }.
End WhisperWord.

(** An entry of [all_whisper_words] (lines 85-90). *)
Module Word.
Record t := make {
  text : str; start : float; end_ : float; probability : float }.
End Word.

(** A speech segment of the diarization ([speech_segment]). *)
Module Segment.
Record t := make { start : float; end_ : float }.
End Segment.

(** An entry of [word_chunks_for_frontend] (lines 123-128, 138-143);
    ["timestamp"] is the two-element list [[start, end]]. *)
Module Chunk.
Record t := make {
  text : str; timestamp : float * float; score : float;
  speaker : option str }.
End Chunk.

(** What the body of the loop of line 114 works on: items unpacked into
    [(speech_segment, speaker_label)]. *)
Definition Tracks := list (Segment.t * str).

(** A source of such items for a path. (The pipeline of pyannote, whose
    items have three values, is [Pyannote.Pipeline] below.) *)
Definition Pipeline := str -> Tracks.

(** The result of [whisper_model.transcribe]: the words of each segment,
    and [info.language]. *)
Record Transcription := {
  segments : list (list WhisperWord.t);
  language : str }.

(** The JSON object returned on success (lines 147-151). *)
Record Response := {
  r_text : str;
  r_chunks : list Chunk.t;
  r_language : str }.

(** ** Lines 82-92 *)

Definition all_whisper_words (segments_generator : list (list WhisperWord.t))
  : list Word.t :=
  flat_map
    (List.map (fun word =>
       Word.make (strip (WhisperWord.word word)) (WhisperWord.start word)
                 (WhisperWord.end_ word) (WhisperWord.probability word)))
    segments_generator.

Definition full_text_from_whisper (words : list Word.t) : str :=
  strip (join [] (List.map (fun word => Word.text word ++ py " ") words)).

(** ** Lines 101-132: the diarization branch *)

(** The variables shared by the loop and the closure. *)
Record Frame := {
  final_transcript_text : str;
  word_chunks_for_frontend : list Chunk.t;
  current_speaker : option str;
  current_speaker_words : list Word.t }.

(** Lines 94-95 and 101-102. *)
Definition initial_frame : Frame :=
  {| final_transcript_text := [];
     word_chunks_for_frontend := [];
     current_speaker := None;
     current_speaker_words := [] |}.

(** [" ".join(w["text"] for w in current_speaker_words).strip()] *)
Definition segment_text (words : list Word.t) : str :=
  strip (join (py " ") (List.map Word.text words)).

(** Lines 104-112. *)
Definition add_speaker_segment (f : Frame) : Frame :=
  if truthy (current_speaker_words f) then
    let text := segment_text (current_speaker_words f) in
    let transcript :=
      if truthy text then
        let t := final_transcript_text f in
        let t := if truthy t && negb (endswith t LF) then t ++ LF else t in
        t ++ format (current_speaker f) ++ py ": " ++ text ++ LF
      else final_transcript_text f in
    {| final_transcript_text := transcript;
       word_chunks_for_frontend := word_chunks_for_frontend f;
       current_speaker := current_speaker f;
       current_speaker_words := [] |}
  else f.

(** The test of line 121. *)
Definition inside (word : Word.t) (speech_segment : Segment.t) : bool :=
  PrimFloat.leb (Segment.start speech_segment) (Word.start word)
  && PrimFloat.leb (Word.end_ word) (Segment.end_ speech_segment).

Definition chunk (speaker : option str) (word : Word.t) : Chunk.t :=
  Chunk.make (Word.text word) (Word.start word, Word.end_ word)
             (Word.probability word) speaker.

(** Lines 121-130: the body of the loop over the words. *)
Definition word_body (speech_segment : Segment.t) (speaker_label : str)
  (f : Frame) (word : Word.t) : Frame :=
  if inside word speech_segment then
    {| final_transcript_text := final_transcript_text f;
       word_chunks_for_frontend :=
         word_chunks_for_frontend f ++ [chunk (Some speaker_label) word];
       current_speaker := current_speaker f;
       current_speaker_words := current_speaker_words f ++ [word] |}
  else if PrimFloat.ltb (Segment.end_ speech_segment) (Word.start word) then f
  else f.

Definition speaker_changed (f : Frame) (speaker_label : str) : bool :=
  match current_speaker f with
  | None => false
  | Some s => negb (str_eqb speaker_label s)
  end.

Definition set_current_speaker (speaker_label : str) (f : Frame) : Frame :=
  {| final_transcript_text := final_transcript_text f;
     word_chunks_for_frontend := word_chunks_for_frontend f;
     current_speaker := Some speaker_label;
     current_speaker_words := current_speaker_words f |}.

(** Lines 115-130: the body of the loop over the tracks. *)
Definition track_body (words : list Word.t) (f : Frame)
  (track : Segment.t * str) : Frame :=
  let (speech_segment, speaker_label) := track in
  let f :=
    if speaker_changed f speaker_label then add_speaker_segment f else f in
  let f := set_current_speaker speaker_label f in
  fold_left (word_body speech_segment speaker_label) words f.

(** Lines 101-132, on items that are unpacked. *)
Definition diarized (words : list Word.t) (tracks : Tracks) : Frame :=
  add_speaker_segment (fold_left (track_body words) tracks initial_frame).

(** ** Lines 92-151: from the words to the response *)

(** The response, on items that are unpacked ([answer] below is the
    code as it runs on the items of pyannote). *)
Definition respond (diarize : bool) (diarization_pipeline : option Pipeline)
  (audio_path : str) (words : list Word.t) (info_language : str) : Response :=
  let full_text := full_text_from_whisper words in
  let (transcript, chunks) :=
    match diarize, diarization_pipeline with
    | true, Some pipeline =>
        let f := diarized words (pipeline audio_path) in
        (final_transcript_text f, word_chunks_for_frontend f)
    | _, _ => (full_text, List.map (chunk None) words)
    end in
  {| r_text := strip transcript;
     r_chunks := chunks;
     r_language := info_language |}.

(** ** Lines 75-151 *)

Definition transcribe_audio (diarize : bool)
  (diarization_pipeline : option Pipeline) (audio_path : str)
  (whisper : Transcription) : Response :=
  respond diarize diarization_pipeline audio_path
    (all_whisper_words (segments whisper)) (language whisper).

(** ** Line 114 as it runs *)

(** The result of the pipeline ([diarization_results], an [Annotation]
    of pyannote): its tracks in the order of the iteration, each with
    its segment, the name of the track and its label. The pipeline is
    called on the path of the audio file (line 99) and returns the
    annotation, or raises. The module variable [diarization_pipeline] is
    [None] or a pipeline, and a pipeline counts as true in the test of
    line 97. *)
Module Pyannote.
Definition Annotation := list (Segment.t * str * str).
Definition Pipeline := str -> str + Annotation.
End Pyannote.

(** An item of [itertracks]: a tuple of two or of three values. *)
Inductive Item :=
| item2 (speech_segment : Segment.t) (track : str)
| item3 (speech_segment : Segment.t) (track : str) (label : str).

(** [annotation.itertracks(yield_label=yield_label)]: it yields
    [(segment, track)], and [(segment, track, label)] with
    [yield_label]. *)
Definition itertracks (annotation : Pyannote.Annotation) (yield_label : bool)
  : list Item :=
  List.map
    (fun '(speech_segment, track, label) =>
       if yield_label then item3 speech_segment track label
       else item2 speech_segment track)
    annotation.

(** The two targets [speech_segment, speaker_label] of line 114: an item
    of two values is unpacked, an item of three raises [ValueError] with
    the message [too_many_values]. *)
Definition unpack (too_many_values : str) (item : Item)
  : str + Segment.t * str :=
  match item with
  | item2 speech_segment track => inr (speech_segment, track)
  | item3 _ _ _ => inl too_many_values
  end.

(** Lines 114-130: the loop over the items, up to the first one that
    cannot be unpacked. *)
Fixpoint for_tracks (too_many_values : str) (words : list Word.t)
  (items : list Item) (f : Frame) : str + Frame :=
  match items with
  | [] => inr f
  | item :: rest =>
      match unpack too_many_values item with
      | inl e => inl e
      | inr track =>
          for_tracks too_many_values words rest (track_body words f track)
      end
  end.

(** ** Notions used in the statements *)

(** The words of the timeline that line 121 selects for a segment. *)
Definition select (words : list Word.t) (speech_segment : Segment.t)
  : list Word.t :=
  filter (fun word => inside word speech_segment) words.

(** The frame after the words [selected] have been appended for
    [speaker_label]: the effect of the loop over the words. *)
Definition extend (speaker_label : str) (selected : list Word.t) (f : Frame)
  : Frame :=
  {| final_transcript_text := final_transcript_text f;
     word_chunks_for_frontend :=
       word_chunks_for_frontend f
       ++ List.map (chunk (Some speaker_label)) selected;
     current_speaker := current_speaker f;
     current_speaker_words := current_speaker_words f ++ selected |}.

(** The loop over the tracks (lines 114-130), and line 132. *)
Definition tracks_loop (words : list Word.t) (tracks : Tracks) (f : Frame)
  : Frame :=
  fold_left (track_body words) tracks f.

Definition finish (words : list Word.t) (tracks : Tracks) (f : Frame)
  : Frame :=
  add_speaker_segment (tracks_loop words tracks f).

(** The per-word entries the loop appends for one track. *)
Definition tagged (words : list Word.t) (track : Segment.t * str)
  : list Chunk.t :=
  List.map (chunk (Some (snd track))) (select words (fst track)).

(** The word an entry of the per-word list was made from. *)
Definition word_of_chunk (c : Chunk.t) : Word.t :=
  Word.make (Chunk.text c) (fst (Chunk.timestamp c)) (snd (Chunk.timestamp c))
            (Chunk.score c).

(** One line of the grouped transcript. *)
Definition line (speaker_label text : str) : str :=
  speaker_label ++ py ": " ++ text ++ LF.

(** A string of whitespace only (the empty string included). *)
Definition blank (s : str) : bool := forallb isspace s.

(** The transcript is empty or ends with a newline. *)
Definition closed (t : str) : Prop :=
  truthy t && negb (endswith t LF) = false.


(** What a run of tracks of one speaker contributes to the transcript:
    nothing when its words join to a blank text. *)
Definition render (group : str * list Word.t) : str :=
  let text := segment_text (snd group) in
  if truthy text then line (fst group) text else [].


(** The lines of a text: [s.split("\n")]. *)
Fixpoint split_lines (s : str) : list str :=
  match s with
  | [] => [[]]
  | c :: s' =>
      match split_lines s' with
      | [] => [[]]
      | l :: ls => if (c =? 10)%N then [] :: l :: ls else (c :: l) :: ls
      end
  end.

(** The string has no newline. *)
Definition one_line (s : str) : Prop := ~ In 10%N s.

(** The string does not start with whitespace. *)
Definition starts_clean (s : str) : Prop :=
  match s with
  | [] => True
  | c :: _ => isspace c = false
  end.

(** ** Lines 31-159: the route *)

(** [s.startswith(prefix)] *)
Definition startswith (s prefix : str) : bool :=
  str_eqb (firstn (length prefix) s) prefix.

(** [os.path.join(a, b)] ([posixpath]). *)
Definition path_join (a b : str) : str :=
  if startswith b (py "/") then b
  else if negb (truthy a) || endswith a (py "/") then a ++ b
  else a ++ py "/" ++ b.

(** [f"{n}"] for a non-negative integer. *)
Definition decimal (n : N) : str :=
  py (NilEmpty.string_of_uint (N.to_uint n)).

(** [str.lower] on one ASCII character. *)
Definition ascii_lower (c : char) : char :=
  if ((65 <=? c) && (c <=? 90))%N then (c + 32)%N else c.

Definition is_ascii (s : str) : bool := forallb (fun c => (c <? 128)%N) s.

(** The uploaded file, [request.files['file']]: its [filename], and what
    [file.save(audio_path)] does: it returns ([None]), or it raises an
    exception with the given message, having created the file or not. *)
Module FileStorage.
Record t := make {
  filename : option str;
  save : option (str * bool) }.
End FileStorage.

(** The request: the entry ['file'] of [request.files] and the entry
    ['diarize'] of [request.form], when present. *)
Module Request.
Record t := make {
  file : option FileStorage.t;
  diarize : option str }.
End Request.

(** The module variables that the route reads. *)
Module Globals.
Record t := make {
  device : str;
  diarization_pipeline : option Pyannote.Pipeline }.
End Globals.

(** What the route gets from outside while it serves one request; a
    call that can raise gives the message of its exception.
    - [getcwd], [getpid]: [os.getcwd()], [os.getpid()];
    - [environ]: [os.environ.get("HUGGING_FACE_HUB_TOKEN")];
    - [from_pretrained]: [Pipeline.from_pretrained] on the token
      (line 63): an exception, or what it returns, a pipeline or [None]
      (it returns [None] when it could not download the pipeline);
    - [to]: the exception of [diarization_pipeline.to] on a pipeline
      (line 68), if any;
    - [transcribe]: [whisper_model.transcribe] on the path and the
      iteration of its segments (lines 75-90), or an exception;
    - [too_many_values]: the message of the [ValueError] that Python
      raises when three values are unpacked into two names ("too many
      values to unpack (expected 2)", which later versions complete
      with the number of values). *)
Record World := {
  getcwd : str;
  getpid : N;
  environ : option str;
  from_pretrained : str -> str + option Pyannote.Pipeline;
  to : option str;
  transcribe : str -> str + Transcription;
  too_many_values : str }.

(** What the route returns: [jsonify({'error': message}), status], or
    the JSON object of a success. *)
Inductive Reply :=
| error (message : str) (status : N)
| ok (response : Response).

Definition no_token : str :=
  py "HUGGING_FACE_HUB_TOKEN environment variable is not set. Speaker diarization requires it. Please set it and accept the pyannote model terms on Hugging Face.".

Definition failed_to_load (e : str) : str :=
  py "Failed to load diarization model. Did you accept its terms on Hugging Face (e.g., pyannote/speaker-diarization-3.1) and set the HUGGING_FACE_HUB_TOKEN environment variable? Error: "
  ++ e.

(** The message of the [AttributeError] of line 68 when
    [diarization_pipeline] is [None]. *)
Definition none_has_no_to : str :=
  py "'NoneType' object has no attribute 'to'".

Definition set_pipeline (g : Globals.t)
  (pipeline : option Pyannote.Pipeline) : Globals.t :=
  Globals.make (Globals.device g) pipeline.

(** Lines 56-72: an exception or not, and the module variables. What
    [from_pretrained] returns is assigned as it is, a [None] too. *)
Definition load_pipeline (w : World) (g : Globals.t) (diarize : bool)
  : (str + unit) * Globals.t :=
  match diarize, Globals.diarization_pipeline g with
  | true, None =>
      match environ w with
      | None => (inl no_token, g)
      | Some hf_token =>
          if negb (truthy hf_token) then (inl no_token, g)
          else
            match from_pretrained w hf_token with
            | inl e => (inl (failed_to_load e), set_pipeline g None)
            | inr pipeline =>
                if str_eqb (Globals.device g) (py "cuda") then
                  match pipeline, to w with
                  | None, _ =>
                      (inl (failed_to_load none_has_no_to),
                       set_pipeline g None)
                  | Some _, Some e =>
                      (inl (failed_to_load e), set_pipeline g None)
                  | Some _, None => (inr tt, set_pipeline g pipeline)
                  end
                else (inr tt, set_pipeline g pipeline)
            end
      end
  | _, _ => (inr tt, g)
  end.

(** Lines 97-144: the lines printed, and the exception raised or
    [final_transcript_text] and [word_chunks_for_frontend]. The module
    variable [diarization_pipeline] is read by the test of line 97 and
    by the call of line 99. *)
Definition alignment (w : World) (g : Globals.t) (diarize : bool)
  (audio_path : str) (words : list Word.t)
  : list str * (str + str * list Chunk.t) :=
  match diarize, Globals.diarization_pipeline g with
  | true, Some diarization_pipeline =>
      let printed := [py "Performing speaker diarization..."] in
      match diarization_pipeline audio_path with
      | inl e => (printed, inl e)
      | inr diarization_results =>
          match for_tracks (too_many_values w) words
                  (itertracks diarization_results true) initial_frame with
          | inl e => (printed, inl e)
          | inr f =>
              let f := add_speaker_segment f in
              (printed ++ [py "Diarization complete."],
               inr (final_transcript_text f, word_chunks_for_frontend f))
          end
      end
  | _, _ =>
      ([py "Standard transcription (no diarization) complete."],
       inr (full_text_from_whisper words, List.map (chunk None) words))
  end.

(** Lines 92-151: the response, or the exception raised. *)
Definition answer (w : World) (g : Globals.t) (diarize : bool)
  (audio_path : str) (words : list Word.t) (info_language : str)
  : str + Response :=
  match snd (alignment w g diarize audio_path words) with
  | inl e => inl e
  | inr (transcript, chunks) =>
      inr {| r_text := strip transcript;
             r_chunks := chunks;
             r_language := info_language |}
  end.

(** Lines 54-151, after the file is saved: the response or an exception,
    and the module variables. *)
Definition after_save (w : World) (g : Globals.t) (diarize : bool)
  (audio_path : str) : (str + Response) * Globals.t :=
  let (loaded, g) := load_pipeline w g diarize in
  match loaded with
  | inl e => (inl e, g)
  | inr _ =>
      match transcribe w audio_path with
      | inl e => (inl e, g)
      | inr whisper =>
          (answer w g diarize audio_path
             (all_whisper_words (segments whisper)) (language whisper), g)
      end
  end.

(** Lines 49-50. *)
Definition temporary_path (w : World) (file : FileStorage.t) : str :=
  let audio_filename :=
    match FileStorage.filename file with
    | Some name => if truthy name then name else py "uploaded_audio"
    | None => py "uploaded_audio"
    end in
  path_join (getcwd w)
    (py "temp_" ++ decimal (getpid w) ++ py "_" ++ audio_filename).

(** [os.remove(path)] when it returns, on the list of the files that
    exist. *)
Definition remove_file (path : str) (files : list str) : list str :=
  filter (fun p => negb (str_eqb path p)) files.

Section Route.

(** [str.lower] on the strings that are not ASCII only. *)
Variable lower_unicode : str -> str.

Definition lower (s : str) : str :=
  if is_ascii s then List.map ascii_lower s else lower_unicode s.

(** Line 42. *)
Definition requested (req : Request.t) : bool :=
  str_eqb
    (lower (match Request.diarize req with
            | Some value => value
            | None => py "false"
            end))
    (py "true").

(** Lines 31-159: the reply, the module variables and the files that
    exist afterwards, in the runs in which the removal of line 158
    returns. (A removal that raises leaves the view with its exception:
    the file stays and the reply is not the one built here.) The lines
    printed outside lines 97-144 are left out. *)
Definition route (g : Globals.t) (files : list str) (w : World)
  (req : Request.t) : Reply * Globals.t * list str :=
  match Request.file req with
  | None => (error (py "No file part in the request") 400, g, files)
  | Some file =>
      if match FileStorage.filename file with
         | Some name => str_eqb name []
         | None => false
         end
      then (error (py "No file selected") 400, g, files)
      else
        let diarize := requested req in
        let audio_path := temporary_path w file in
        let '(result, g, files) :=
          match FileStorage.save file with
          | Some (e, created) =>
              (inl e, g, if created then audio_path :: files else files)
          | None =>
              let (result, g) := after_save w g diarize audio_path in
              (result, g, audio_path :: files)
          end in
        let reply :=
          match result with
          | inl e => error e 500
          | inr response => ok response
          end in
        let files :=
          if truthy audio_path && existsb (str_eqb audio_path) files
          then remove_file audio_path files else files in
        (reply, g, files)
  end.

(** The requests of one process, one after the other. *)
Fixpoint serve (g : Globals.t) (files : list str)
  (requests : list (World * Request.t))
  : list Reply * Globals.t * list str :=
  match requests with
  | [] => ([], g, files)
  | (w, req) :: rest =>
      let '(reply, g, files) := route g files w req in
      let '(replies, g, files) := serve g files rest in
      (reply :: replies, g, files)
  end.

End Route.

(** The three results of the route. *)
Definition reply_of (x : Reply * Globals.t * list str) : Reply :=
  fst (fst x).

Definition globals_of {A : Type} (x : A * Globals.t * list str)
  : Globals.t :=
  snd (fst x).

Definition files_of {A : Type} (x : A * Globals.t * list str) : list str :=
  snd x.

(** The items of an annotation, unpacked into the segment and the
    label, and the source of such items that a pipeline gives (none when
    it raises). *)
Definition labelled (annotation : Pyannote.Annotation) : Tracks :=
  List.map (fun '(speech_segment, _, label) => (speech_segment, label))
    annotation.

Definition unpacked (pipeline : Pyannote.Pipeline) : Pipeline :=
  fun audio_path =>
    match pipeline audio_path with
    | inl _ => []
    | inr annotation => labelled annotation
    end.

(** What lines 97-99 get through the module variable: nothing when the
    test of line 97 fails, or else the result of the call of line 99. *)
Definition diarization_results (g : Globals.t) (diarize : bool)
  (audio_path : str) : option (str + Pyannote.Annotation) :=
  match diarize, Globals.diarization_pipeline g with
  | true, Some diarization_pipeline => Some (diarization_pipeline audio_path)
  | _, _ => None
  end.

(** The uploaded file, when the checks of lines 34-39 accept it. *)
Definition accepted (req : Request.t) : option FileStorage.t :=
  match Request.file req with
  | Some file =>
      match FileStorage.filename file with
      | Some [] => None
      | _ => Some file
      end
  | None => None
  end.

(** ** Inputs of the scenarios *)

Open Scope float_scope.

Definition ww (s : string) (a b p : float) : WhisperWord.t :=
  WhisperWord.make (py s) a b p.
Arguments ww s%_string a b p.

Definition wd (s : string) (a b p : float) : Word.t :=
  Word.make (py s) a b p.
Arguments wd s%_string a b p.

Definition interval (a b : float) (s : string) : Segment.t * str :=
  (Segment.make a b, py s).
Arguments interval a b s%_string.

Definition wav : str := py "temp_1_audio.wav".

Definition two_words : list Word.t :=
  [wd "a" 0.0 0.5 0.9; wd "b" 0.6 1.0 0.8].

Definition one_speaker : Pipeline :=
  fun _ => [interval 0.0 1.0 "SPEAKER_00"].

Definition two_speakers : Pipeline :=
  fun _ => [interval 0.0 0.5 "SPEAKER_00"; interval 0.6 1.0 "SPEAKER_01"].

Definition hello_world : list Word.t :=
  [wd "hello" 0 0.3 0.99; wd "world" 0.3 0.6 0.95].

Definition silent : Pipeline := fun _ => [].

(** Tracks as pyannote gives them, and pipelines that return them. *)
Definition track (a b : float) (name label : string)
  : Segment.t * str * str :=
  (Segment.make a b, py name, py label).
Arguments track a b (name label)%_string.

Definition one_track : Pyannote.Pipeline :=
  fun _ => inr [track 0.0 1.0 "A" "SPEAKER_00"].

Definition two_tracks : Pyannote.Pipeline :=
  fun _ => inr [track 0.0 0.5 "A" "SPEAKER_00";
                track 0.6 1.0 "B" "SPEAKER_01"].

Definition interrupted_tracks : Pyannote.Pipeline :=
  fun _ => inr [track 0.0 1.0 "A" "SPEAKER_00";
                track 1.0 2.0 "B" "SPEAKER_01";
                track 2.0 3.0 "C" "SPEAKER_00"].

Definition no_tracks : Pyannote.Pipeline := fun _ => inr [].

(** A process on the CPU, before and after a pipeline is loaded. *)
Definition fresh : Globals.t := Globals.make (py "cpu") None.

Definition on_cpu (pipeline : Pyannote.Pipeline) : Globals.t :=
  Globals.make (py "cpu") (Some pipeline).

Definition loaded : Globals.t := on_cpu two_tracks.

(** An upload that is saved, with its form field. *)
Definition upload (name : string) (flag : option string) : Request.t :=
  Request.make (Some (FileStorage.make (Some (py name)) None))
    (option_map py flag).
Arguments upload name%_string flag.

(** A machine with a token, on which no call to a library raises. *)
Definition working : World :=
  {| getcwd := py "/srv/app";
     getpid := 4242;
     environ := Some (py "hf_token");
     from_pretrained := fun _ => inr (Some two_tracks);
     to := None;
     transcribe := fun _ =>
       inr {| segments := [[ww " a" 0.0 0.5 0.9; ww " b" 0.6 1.0 0.8]];
              language := py "en" |};
     too_many_values := py "too many values to unpack (expected 2)" |}.

(** The same machine without a token. *)
Definition tokenless : World :=
  {| getcwd := py "/srv/app";
     getpid := 4242;
     environ := None;
     from_pretrained := fun _ => inl (py "401 Unauthorized");
     to := None;
     transcribe := transcribe working;
     too_many_values := too_many_values working |}.

(** The same machine when the pipeline cannot be downloaded:
    [from_pretrained] returns [None]. *)
Definition gated : World :=
  {| getcwd := py "/srv/app";
     getpid := 4242;
     environ := Some (py "hf_token");
     from_pretrained := fun _ => inr None;
     to := None;
     transcribe := transcribe working;
     too_many_values := too_many_values working |}.

(** A word across the boundary of the two intervals of [two_speakers]. *)
Definition across : Word.t := wd "x" 0.4 0.7 0.5.

(** A word in each of the three intervals of [interrupted_tracks]. *)
Definition three_words : list Word.t :=
  [wd "yes" 0.2 0.4 0.9; wd "no" 1.2 1.4 0.9; wd "well" 2.2 2.4 0.9].

Close Scope float_scope.

(** * Strings *)

Lemma lstrip_blank (s : str) : lstrip s = [] <-> blank s = true.
Proof.
  induction s as [|c s IH]; simpl.
  - tauto.
  - destruct (isspace c); simpl; [exact IH | split; discriminate].
Qed.

Lemma blank_app (s t : str) : blank (s ++ t) = blank s && blank t.
Proof. apply forallb_app. Qed.

Lemma blank_rev (s : str) : blank (rev s) = blank s.
Proof.
  induction s as [|c s IH]; simpl; [reflexivity|].
  rewrite blank_app, IH. simpl. rewrite andb_true_r. apply andb_comm.
Qed.

Lemma blank_lstrip (s : str) : blank (lstrip s) = blank s.
Proof.
  induction s as [|c s IH]; simpl; [reflexivity|].
  destruct (isspace c) eqn:E; simpl; [exact IH | now rewrite E].
Qed.

Lemma strip_blank (s : str) : strip s = [] <-> blank s = true.
Proof.
  unfold strip, rstrip. split.
  - intros H. apply (f_equal (@rev char)) in H. rewrite rev_involutive in H.
    simpl in H. apply lstrip_blank in H.
    now rewrite blank_rev, blank_lstrip in H.
  - intros H. rewrite <- blank_lstrip, <- blank_rev in H.
    apply lstrip_blank in H. now rewrite H.
Qed.

(** [lstrip] keeps a string that does not start with whitespace. *)
Lemma lstrip_fixed (s : str) :
  match s with [] => True | c :: _ => isspace c = false end -> lstrip s = s.
Proof. destruct s as [|c s]; simpl; [reflexivity|]. now intros ->. Qed.

Lemma lstrip_head (s : str) :
  match lstrip s with [] => True | c :: _ => isspace c = false end.
Proof.
  induction s as [|c s IH]; simpl; [exact I|].
  destruct (isspace c) eqn:E; [exact IH | exact E].
Qed.

Lemma lstrip_idem (s : str) : lstrip (lstrip s) = lstrip s.
Proof. apply lstrip_fixed, lstrip_head. Qed.

Lemma lstrip_app (s t : str) :
  lstrip (s ++ t) = if blank s then lstrip t else lstrip s ++ t.
Proof.
  induction s as [|c s IH]; simpl; [reflexivity|].
  destruct (isspace c); simpl; [exact IH | reflexivity].
Qed.

Lemma rstrip_app (s t : str) :
  rstrip (s ++ t) = if blank t then rstrip s else s ++ rstrip t.
Proof.
  unfold rstrip. rewrite rev_app_distr, lstrip_app, blank_rev.
  destruct (blank t); [reflexivity|].
  now rewrite rev_app_distr, rev_involutive.
Qed.

Lemma rstrip_idem (s : str) : rstrip (rstrip s) = rstrip s.
Proof. unfold rstrip. now rewrite rev_involutive, lstrip_idem. Qed.

(** [rstrip] keeps the first character of a string that starts with
    a character that is not whitespace. *)
Lemma rstrip_head (s : str) :
  match s with [] => True | c :: _ => isspace c = false end ->
  match rstrip s with [] => True | c :: _ => isspace c = false end.
Proof.
  destruct s as [|c s]; [intros _; exact I|]. intros E.
  change (c :: s) with ([c] ++ s). rewrite rstrip_app.
  destruct (blank s).
  - unfold rstrip. simpl. now rewrite E.
  - exact E.
Qed.

Lemma strip_idem (s : str) : strip (strip s) = strip s.
Proof.
  unfold strip at 1.
  rewrite (lstrip_fixed (strip s)).
  - unfold strip. apply rstrip_idem.
  - unfold strip. apply rstrip_head, lstrip_head.
Qed.

(** Trailing whitespace does not change the result of [strip]. *)
Lemma strip_app_blank (s t : str) : blank t = true -> strip (s ++ t) = strip s.
Proof.
  intros B. unfold strip. rewrite lstrip_app.
  destruct (blank s) eqn:E.
  - apply lstrip_blank in E. rewrite E.
    apply lstrip_blank in B. now rewrite B.
  - now rewrite rstrip_app, B.
Qed.

Lemma join_cons (sep p : str) (ps : list str) :
  join sep (p :: ps) = if truthy ps then p ++ sep ++ join sep ps else p.
Proof. destruct ps; reflexivity. Qed.

(** Joining the parts each followed by [sep] gives the join by [sep],
    followed by one more [sep]. *)
Lemma join_trailing (sep : str) (ps : list str) :
  join [] (List.map (fun p => p ++ sep) ps)
  = if truthy ps then join sep ps ++ sep else [].
Proof.
  induction ps as [|p ps IH]; [reflexivity|].
  simpl List.map. rewrite !join_cons, IH.
  destruct ps as [|q ps]; simpl truthy; cbv iota.
  - reflexivity.
  - simpl "++". now rewrite <- !app_assoc.
Qed.

Lemma blank_join (sep : str) (ps : list str) :
  blank sep = true -> blank (join sep ps) = forallb blank ps.
Proof.
  intros S. induction ps as [|p ps IH]; [reflexivity|].
  rewrite join_cons. destruct ps as [|q ps]; simpl truthy; cbv iota.
  - simpl. now rewrite andb_true_r.
  - rewrite !blank_app, S, IH. reflexivity.
Qed.

Lemma str_eqb_refl (s : str) : str_eqb s s = true.
Proof. unfold str_eqb. destruct (list_eq_dec N.eq_dec s s); congruence. Qed.

Lemma str_eqb_eq (s t : str) : str_eqb s t = true <-> s = t.
Proof.
  unfold str_eqb. destruct (list_eq_dec N.eq_dec s t); split; congruence.
Qed.

Lemma str_eqb_neq (s t : str) : str_eqb s t = false <-> s <> t.
Proof.
  unfold str_eqb. destruct (list_eq_dec N.eq_dec s t); split; congruence.
Qed.

Lemma endswith_app (s suffix : str) : endswith (s ++ suffix) suffix = true.
Proof.
  unfold endswith. rewrite length_app. apply andb_true_intro. split.
  - apply Nat.leb_le. lia.
  - replace (length s + length suffix - length suffix) with (length s) by lia.
    rewrite skipn_app, skipn_all, Nat.sub_diag. simpl. apply str_eqb_refl.
Qed.

Lemma closed_nil : closed [].
Proof. reflexivity. Qed.

Lemma closed_app_LF (s : str) : closed (s ++ LF).
Proof. unfold closed. now rewrite endswith_app, andb_false_r. Qed.

Lemma closed_line (t speaker_label text : str) :
  closed (t ++ line speaker_label text).
Proof.
  unfold line. rewrite !app_assoc. apply closed_app_LF.
Qed.

(** * The segment text *)

Lemma segment_text_stripped (words : list Word.t) :
  strip (segment_text words) = segment_text words.
Proof. apply strip_idem. Qed.

(** * The loop over the words *)

Lemma extend_nil (speaker_label : str) (f : Frame) :
  extend speaker_label [] f = f.
Proof. destruct f. unfold extend. simpl. now rewrite !app_nil_r. Qed.

Lemma words_loop (speech_segment : Segment.t) (speaker_label : str)
  (words : list Word.t) (f : Frame) :
  fold_left (word_body speech_segment speaker_label) words f
  = extend speaker_label (select words speech_segment) f.
Proof.
  revert f. induction words as [|w ws IH]; intros f.
  - symmetry. apply extend_nil.
  - simpl fold_left. rewrite IH. unfold word_body, select. simpl filter.
    destruct (inside w speech_segment).
    + unfold extend. simpl. now rewrite <- !app_assoc.
    + now destruct (PrimFloat.ltb _ _).
Qed.

Lemma track_body_eq (words : list Word.t) (f : Frame)
  (speech_segment : Segment.t) (speaker_label : str) :
  track_body words f (speech_segment, speaker_label)
  = extend speaker_label (select words speech_segment)
      (set_current_speaker speaker_label
         (if speaker_changed f speaker_label
          then add_speaker_segment f else f)).
Proof. unfold track_body. apply words_loop. Qed.

(** * The closure *)

(** With a transcript that is empty or ends with a newline, the test of
    line 109 fails, and the closure appends what [render] gives. *)
Lemma add_speaker_segment_eq (f : Frame) :
  closed (final_transcript_text f) ->
  add_speaker_segment f
  = {| final_transcript_text :=
         final_transcript_text f
         ++ (if truthy (segment_text (current_speaker_words f))
             then line (format (current_speaker f))
                       (segment_text (current_speaker_words f))
             else []);
       word_chunks_for_frontend := word_chunks_for_frontend f;
       current_speaker := current_speaker f;
       current_speaker_words := [] |}.
Proof.
  intros C. destruct f as [t cs sp ws]. unfold add_speaker_segment. simpl in *.
  destruct ws as [|w ws].
  - simpl. now rewrite app_nil_r.
  - simpl truthy at 1. cbv iota. f_equal.
    destruct (truthy (segment_text (w :: ws))); [|now rewrite app_nil_r].
    unfold closed in C. now rewrite C.
Qed.

Lemma add_speaker_segment_chunks (f : Frame) :
  word_chunks_for_frontend (add_speaker_segment f) = word_chunks_for_frontend f.
Proof. unfold add_speaker_segment. now destruct (truthy _). Qed.

Lemma add_speaker_segment_words (f : Frame) :
  current_speaker_words (add_speaker_segment f) = [].
Proof.
  unfold add_speaker_segment.
  destruct (current_speaker_words f) eqn:E; simpl; [exact E | reflexivity].
Qed.

Lemma add_speaker_segment_closed (f : Frame) :
  closed (final_transcript_text f) ->
  closed (final_transcript_text (add_speaker_segment f)).
Proof.
  intros C. rewrite add_speaker_segment_eq by exact C. simpl.
  destruct (truthy _); [apply closed_line | now rewrite app_nil_r].
Qed.

(** * The loop over the tracks *)

Lemma track_body_chunks (words : list Word.t) (f : Frame)
  (track : Segment.t * str) :
  word_chunks_for_frontend (track_body words f track)
  = word_chunks_for_frontend f ++ tagged words track.
Proof.
  destruct track as [seg l]. rewrite track_body_eq. simpl.
  destruct (speaker_changed f l); [|reflexivity].
  now rewrite add_speaker_segment_chunks.
Qed.

Lemma track_body_speaker (words : list Word.t) (f : Frame)
  (speech_segment : Segment.t) (speaker_label : str) :
  current_speaker (track_body words f (speech_segment, speaker_label))
  = Some speaker_label.
Proof. now rewrite track_body_eq. Qed.

Lemma track_body_closed (words : list Word.t) (f : Frame)
  (track : Segment.t * str) :
  closed (final_transcript_text f) ->
  closed (final_transcript_text (track_body words f track)).
Proof.
  intros C. destruct track as [seg l]. rewrite track_body_eq. simpl.
  destruct (speaker_changed f l); [|exact C].
  now apply add_speaker_segment_closed.
Qed.

Lemma tracks_loop_cons (words : list Word.t) (track : Segment.t * str)
  (tracks : Tracks) (f : Frame) :
  tracks_loop words (track :: tracks) f
  = tracks_loop words tracks (track_body words f track).
Proof. reflexivity. Qed.

Lemma tracks_loop_chunks (words : list Word.t) (tracks : Tracks) (f : Frame) :
  word_chunks_for_frontend (tracks_loop words tracks f)
  = word_chunks_for_frontend f ++ flat_map (tagged words) tracks.
Proof.
  revert f. induction tracks as [|tr ts IH]; intros f; simpl.
  - now rewrite app_nil_r.
  - unfold tracks_loop in *. simpl. rewrite IH, track_body_chunks.
    now rewrite <- app_assoc.
Qed.

Lemma tracks_loop_closed (words : list Word.t) (tracks : Tracks) (f : Frame) :
  closed (final_transcript_text f) ->
  closed (final_transcript_text (tracks_loop words tracks f)).
Proof.
  revert f. induction tracks as [|tr ts IH]; intros f C; [exact C|].
  apply IH. now apply track_body_closed.
Qed.

Lemma diarized_chunks (words : list Word.t) (tracks : Tracks) :
  word_chunks_for_frontend (diarized words tracks)
  = flat_map (tagged words) tracks.
Proof.
  unfold diarized. rewrite add_speaker_segment_chunks.
  apply (tracks_loop_chunks words tracks initial_frame).
Qed.

Lemma add_speaker_segment_text (f : Frame) :
  closed (final_transcript_text f) ->
  final_transcript_text (add_speaker_segment f)
  = final_transcript_text f
    ++ render (format (current_speaker f), current_speaker_words f).
Proof. intros C. now rewrite add_speaker_segment_eq. Qed.

Lemma track_body_changed (words : list Word.t) (f : Frame)
  (speech_segment : Segment.t) (speaker_label : str) :
  closed (final_transcript_text f) ->
  speaker_changed f speaker_label = true ->
  final_transcript_text (track_body words f (speech_segment, speaker_label))
  = final_transcript_text f
    ++ render (format (current_speaker f), current_speaker_words f)
  /\ current_speaker_words (track_body words f (speech_segment, speaker_label))
     = select words speech_segment.
Proof.
  intros C H. rewrite track_body_eq, H. simpl.
  now rewrite add_speaker_segment_text, add_speaker_segment_words.
Qed.

Lemma track_body_same (words : list Word.t) (f : Frame)
  (speech_segment : Segment.t) (speaker_label : str) :
  speaker_changed f speaker_label = false ->
  final_transcript_text (track_body words f (speech_segment, speaker_label))
  = final_transcript_text f
  /\ current_speaker_words (track_body words f (speech_segment, speaker_label))
     = current_speaker_words f ++ select words speech_segment.
Proof. intros H. rewrite track_body_eq, H. now simpl. Qed.

Lemma finish_cons (words : list Word.t) (track : Segment.t * str)
  (tracks : Tracks) (f : Frame) :
  finish words (track :: tracks) f
  = finish words tracks (track_body words f track).
Proof. reflexivity. Qed.

(** The transcript is made of one [render] per run of tracks of one
    speaker, and the words of the runs are the buffered words followed by
    the words selected for each track, in the order of the loop. *)
Lemma finish_groups (words : list Word.t) (tracks : Tracks) (f : Frame) :
  closed (final_transcript_text f) ->
  exists groups : list (str * list Word.t),
    final_transcript_text (finish words tracks f)
    = final_transcript_text f ++ concat (List.map render groups)
    /\ flat_map snd groups
       = current_speaker_words f
         ++ flat_map (fun track => select words (fst track)) tracks
    /\ Forall (fun g => In (fst g) (List.map snd tracks)
                        \/ Some (fst g) = current_speaker f
                        \/ (current_speaker f = None
                            /\ snd g = current_speaker_words f)) groups.
Proof.
  assert (first : forall f0 : Frame,
            Some (format (current_speaker f0)) = current_speaker f0
            \/ current_speaker f0 = None).
  { intros f0. destruct (current_speaker f0); auto. }
  revert f. induction tracks as [|[seg l] ts IH]; intros f C.
  - exists [(format (current_speaker f), current_speaker_words f)].
    unfold finish, tracks_loop. simpl fold_left.
    rewrite add_speaker_segment_text by exact C. simpl.
    rewrite !app_nil_r. repeat split.
    constructor; [|constructor]. simpl. destruct (first f); auto.
  - rewrite finish_cons.
    destruct (IH (track_body words f (seg, l)))
      as (groups & Ht & Hw & Hl); [now apply track_body_closed|].
    rewrite track_body_speaker in Hl.
    assert (Hl' : Forall (fun g => In (fst g) (List.map snd ((seg, l) :: ts))
                                   \/ Some (fst g) = current_speaker f
                                   \/ (current_speaker f = None
                                       /\ snd g = current_speaker_words f))
                    groups).
    { eapply Forall_impl; [|exact Hl]. simpl.
      intros g [H | [H | [H _]]]; [auto | left; left; congruence
                                  | discriminate]. }
    destruct (speaker_changed f l) eqn:E.
    + destruct (track_body_changed words f seg l C E) as [T W].
      exists ((format (current_speaker f), current_speaker_words f) :: groups).
      rewrite Ht, T. simpl. rewrite <- !app_assoc. repeat split.
      * now rewrite Hw, W.
      * constructor; [|exact Hl']. simpl. destruct (first f); auto.
    + destruct (track_body_same words f seg l E) as [T W].
      exists groups. rewrite Ht, T, Hw, W. simpl. rewrite <- !app_assoc.
      repeat split. exact Hl'.
Qed.

(** * The response *)

Lemma respond_on (pipeline : Pipeline) (audio_path : str)
  (words : list Word.t) (info_language : str) :
  respond true (Some pipeline) audio_path words info_language
  = {| r_text := strip (final_transcript_text
                          (diarized words (pipeline audio_path)));
       r_chunks := word_chunks_for_frontend
                     (diarized words (pipeline audio_path));
       r_language := info_language |}.
Proof. reflexivity. Qed.

Lemma respond_off (diarize : bool) (diarization_pipeline : option Pipeline)
  (audio_path : str) (words : list Word.t) (info_language : str) :
  diarize = false \/ diarization_pipeline = None ->
  respond diarize diarization_pipeline audio_path words info_language
  = {| r_text := strip (full_text_from_whisper words);
       r_chunks := List.map (chunk None) words;
       r_language := info_language |}.
Proof.
  intros [-> | ->]; [reflexivity|]. now destruct diarize.
Qed.

Lemma full_text_join (words : list Word.t) :
  full_text_from_whisper words
  = strip (join (py " ") (List.map Word.text words)).
Proof.
  unfold full_text_from_whisper.
  rewrite <- (map_map Word.text (fun t => t ++ py " ")), join_trailing.
  destruct words as [|w ws]; [reflexivity|].
  simpl truthy. cbv iota. now apply strip_app_blank.
Qed.

(** The words collected from the transcription have a trimmed text. *)
Lemma all_whisper_words_trimmed
  (segments_generator : list (list WhisperWord.t)) :
  Forall (fun word => strip (Word.text word) = Word.text word)
    (all_whisper_words segments_generator).
Proof.
  apply Forall_forall. intros w H. unfold all_whisper_words in H.
  apply in_flat_map in H. destruct H as (seg & _ & H).
  apply in_map_iff in H. destruct H as (x & <- & _). apply strip_idem.
Qed.

(** * The selected words *)

Lemma word_of_chunk_chunk (speaker : option str) (word : Word.t) :
  word_of_chunk (chunk speaker word) = word.
Proof. now destruct word. Qed.

Lemma in_tagged (words : list Word.t) (track : Segment.t * str) (c : Chunk.t) :
  In c (tagged words track)
  <-> exists word, In word words /\ inside word (fst track) = true
                   /\ c = chunk (Some (snd track)) word.
Proof.
  unfold tagged, select. rewrite in_map_iff. split.
  - intros (w & <- & H). apply filter_In in H. now exists w.
  - intros (w & H1 & H2 & ->). exists w. split; [reflexivity|].
    now apply filter_In.
Qed.

Lemma in_diarized_chunks (words : list Word.t) (tracks : Tracks) (c : Chunk.t) :
  In c (word_chunks_for_frontend (diarized words tracks))
  <-> exists track word,
        In track tracks /\ In word words /\ inside word (fst track) = true
        /\ c = chunk (Some (snd track)) word.
Proof.
  rewrite diarized_chunks, in_flat_map. split.
  - intros (tr & Ht & Hc). apply in_tagged in Hc.
    destruct Hc as (w & Hw & Hi & ->). now exists tr, w.
  - intros (tr & w & Ht & Hw & Hi & ->). exists tr. split; [exact Ht|].
    apply in_tagged. now exists w.
Qed.

Lemma select_without (ws1 ws2 : list Word.t) (word : Word.t)
  (speech_segment : Segment.t) :
  inside word speech_segment = false ->
  select (ws1 ++ word :: ws2) speech_segment
  = select (ws1 ++ ws2) speech_segment.
Proof. intros H. unfold select. rewrite !filter_app. simpl. now rewrite H. Qed.

(** The loop depends on the words only through the words selected for
    each track. *)
Lemma tracks_loop_select (words words' : list Word.t) (tracks : Tracks)
  (f : Frame) :
  (forall track, In track tracks ->
     select words (fst track) = select words' (fst track)) ->
  tracks_loop words tracks f = tracks_loop words' tracks f.
Proof.
  revert f. induction tracks as [|[seg l] ts IH]; intros f H; [reflexivity|].
  pose proof (H (seg, l) (or_introl eq_refl)) as E. simpl in E.
  rewrite !tracks_loop_cons, !track_body_eq, E.
  apply IH. intros tr Ht. apply H. now right.
Qed.

(** * The lines of the groups *)

(** The lines of the groups whose text is not empty. *)
Lemma render_lines (groups : list (str * list Word.t)) :
  concat (List.map render groups)
  = concat (List.map (fun l => line (fst l) (snd l))
              (List.map (fun g => (fst g, segment_text (snd g)))
                 (filter (fun g => truthy (segment_text (snd g))) groups))).
Proof.
  induction groups as [|g gs IH]; [reflexivity|]. simpl.
  unfold render at 1. destruct (truthy (segment_text (snd g))); simpl;
    now rewrite IH.
Qed.

(** * The lines of the transcript *)

Lemma in_lstrip (c : char) (s : str) : In c (lstrip s) -> In c s.
Proof.
  induction s as [|d s IH]; simpl; [tauto|].
  destruct (isspace d); [right; now apply IH | tauto].
Qed.

Lemma in_strip (c : char) (s : str) : In c (strip s) -> In c s.
Proof.
  unfold strip, rstrip. intros H.
  apply in_lstrip. apply in_rev in H. apply in_lstrip in H.
  now apply in_rev in H.
Qed.

Lemma in_join (c : char) (sep : str) (ps : list str) :
  In c (join sep ps) -> In c sep \/ exists p, In p ps /\ In c p.
Proof.
  induction ps as [|p ps IH]; [intros []|].
  rewrite join_cons. destruct (truthy ps).
  - rewrite !in_app_iff. intros [H | [H | H]].
    + right. exists p. split; [now left | exact H].
    + now left.
    + destruct (IH H) as [S | (q & Hq & Hc)]; [now left|].
      right. exists q. split; [now right | exact Hc].
  - intros H. right. exists p. split; [now left | exact H].
Qed.

Lemma one_line_segment_text (words : list Word.t) :
  (forall word, In word words -> one_line (Word.text word)) ->
  one_line (segment_text words).
Proof.
  intros H Hc. apply in_strip, in_join in Hc.
  destruct Hc as [Hc | (p & Hp & Hc)].
  - simpl in Hc. destruct Hc as [Hc | [] ]. discriminate.
  - apply in_map_iff in Hp. destruct Hp as (w & <- & Hw).
    exact (H w Hw Hc).
Qed.

(** A trimmed string that is not empty ends with a character that is not
    whitespace. *)
Lemma strip_last (s : str) :
  strip s <> [] ->
  exists s' c, strip s = s' ++ [c] /\ isspace c = false.
Proof.
  unfold strip, rstrip. intros H.
  pose proof (lstrip_head (rev (lstrip s))) as L.
  destruct (lstrip (rev (lstrip s))) as [|c u]; [now elim H|].
  exists (rev u), c. now split.
Qed.

Lemma split_lines_cons (s : str) :
  exists l ls, split_lines s = l :: ls.
Proof.
  induction s as [|c s (l & ls & E)]; simpl; [now exists [], []|].
  rewrite E. destruct (c =? 10)%N; eauto.
Qed.

Lemma split_lines_app (l rest : str) :
  one_line l -> split_lines (l ++ LF ++ rest) = l :: split_lines rest.
Proof.
  intros H. change (LF ++ rest) with (10%N :: rest).
  induction l as [|c l IH]; simpl.
  - now destruct (split_lines_cons rest) as (l' & ls & ->).
  - rewrite IH by (intros Z; apply H; now right).
    destruct (N.eqb_spec c 10) as [-> | _]; [|reflexivity].
    elim H. now left.
Qed.

Lemma split_lines_lines (lines : list (str * str)) :
  Forall (fun l => one_line (fst l ++ py ": " ++ snd l)) lines ->
  split_lines (concat (List.map (fun l => line (fst l) (snd l)) lines))
  = List.map (fun l => fst l ++ py ": " ++ snd l) lines ++ [[]].
Proof.
  induction 1 as [|l ls H _ IH]; [reflexivity|].
  change (concat (List.map (fun l => line (fst l) (snd l)) (l :: ls)))
    with (line (fst l) (snd l)
          ++ concat (List.map (fun l => line (fst l) (snd l)) ls)).
  set (rest := concat (List.map (fun l => line (fst l) (snd l)) ls)) in *.
  unfold line.
  replace ((fst l ++ py ": " ++ snd l ++ LF) ++ rest)
    with ((fst l ++ py ": " ++ snd l) ++ LF ++ rest)
    by now rewrite <- !app_assoc.
  rewrite split_lines_app by exact H. rewrite IH. reflexivity.
Qed.

(** The accumulated transcript, line by line: every line has the label of
    a track and the text, not empty, of words of the timeline. *)
Lemma diarized_lines (words : list Word.t) (tracks : Tracks) :
  exists lines : list (str * str),
    final_transcript_text (diarized words tracks)
    = concat (List.map (fun l => line (fst l) (snd l)) lines)
    /\ Forall (fun l => In (fst l) (List.map snd tracks)
                        /\ snd l <> []
                        /\ exists ws, incl ws words
                                      /\ snd l = segment_text ws) lines.
Proof.
  destruct (finish_groups words tracks initial_frame closed_nil)
    as (groups & Ht & Hw & Hl).
  exists (List.map (fun g => (fst g, segment_text (snd g)))
            (filter (fun g => truthy (segment_text (snd g))) groups)).
  split.
  - change (diarized words tracks) with (finish words tracks initial_frame).
    rewrite Ht. apply render_lines.
  - apply Forall_forall. intros l Hin. apply in_map_iff in Hin.
    destruct Hin as (g & <- & Hg). apply filter_In in Hg.
    destruct Hg as [Hg T]. simpl.
    rewrite Forall_forall in Hl. specialize (Hl g Hg). simpl in Hl.
    repeat split.
    + destruct Hl as [H | [H | [_ H]]]; [exact H | discriminate |].
      rewrite H in T. discriminate.
    + intros Z. rewrite Z in T. discriminate.
    + exists (snd g). split; [|reflexivity].
      intros w Hin.
      assert (In w (flat_map snd groups))
        by (apply in_flat_map; now exists g).
      rewrite Hw in H. simpl in H. apply in_flat_map in H.
      destruct H as (tr & _ & H). unfold select in H.
      apply filter_In in H. tauto.
Qed.

(** * The loop as it runs *)

(** The items [(segment, track, label)] cannot be unpacked into two
    names: the loop raises at its first item. *)
Lemma for_tracks_labelled (too_many_values : str) (words : list Word.t)
  (annotation : Pyannote.Annotation) (f : Frame) :
  for_tracks too_many_values words (itertracks annotation true) f
  = match annotation with
    | [] => inr f
    | _ :: _ => inl too_many_values
    end.
Proof. now destruct annotation as [|[[seg name] label] rest]. Qed.

(** On items of two values the loop is the loop over the unpacked
    tracks. *)
Lemma for_tracks_pairs (too_many_values : str) (words : list Word.t)
  (tracks : Tracks) (f : Frame) :
  for_tracks too_many_values words
    (List.map (fun track => item2 (fst track) (snd track)) tracks) f
  = inr (tracks_loop words tracks f).
Proof.
  revert f. induction tracks as [|[seg l] ts IH]; intros f; [reflexivity|].
  simpl List.map. simpl for_tracks. rewrite IH. reflexivity.
Qed.

(** Lines 97-144, by what the module variable gives. *)
Lemma alignment_eq (w : World) (g : Globals.t) (diarize : bool)
  (audio_path : str) (words : list Word.t) :
  alignment w g diarize audio_path words
  = match diarization_results g diarize audio_path with
    | None =>
        ([py "Standard transcription (no diarization) complete."],
         inr (full_text_from_whisper words, List.map (chunk None) words))
    | Some (inl e) => ([py "Performing speaker diarization..."], inl e)
    | Some (inr []) =>
        ([py "Performing speaker diarization..."; py "Diarization complete."],
         inr ([], []))
    | Some (inr (_ :: _)) =>
        ([py "Performing speaker diarization..."], inl (too_many_values w))
    end.
Proof.
  unfold alignment, diarization_results.
  destruct diarize, (Globals.diarization_pipeline g) as [p|]; try reflexivity.
  destruct (p audio_path) as [e|a]; [reflexivity|].
  rewrite for_tracks_labelled. now destruct a.
Qed.

(** Lines 92-151, by what the module variable gives. *)
Lemma answer_eq (w : World) (g : Globals.t) (diarize : bool)
  (audio_path : str) (words : list Word.t) (info_language : str) :
  answer w g diarize audio_path words info_language
  = match diarization_results g diarize audio_path with
    | None =>
        inr {| r_text := strip (full_text_from_whisper words);
               r_chunks := List.map (chunk None) words;
               r_language := info_language |}
    | Some (inl e) => inl e
    | Some (inr []) =>
        inr {| r_text := []; r_chunks := []; r_language := info_language |}
    | Some (inr (_ :: _)) => inl (too_many_values w)
    end.
Proof.
  unfold answer. rewrite alignment_eq.
  now destruct (diarization_results g diarize audio_path) as [[e|[|x a]]|].
Qed.

(** Every response of the code as it runs is the response on the
    unpacked items. *)
Lemma answer_respond (w : World) (g : Globals.t) (diarize : bool)
  (audio_path : str) (words : list Word.t) (info_language : str)
  (response : Response) :
  answer w g diarize audio_path words info_language = inr response ->
  response
  = respond diarize (option_map unpacked (Globals.diarization_pipeline g))
      audio_path words info_language.
Proof.
  rewrite answer_eq. unfold diarization_results.
  destruct diarize, (Globals.diarization_pipeline g) as [p|]; simpl;
    try (now intros [= <-]).
  rewrite respond_on. unfold unpacked.
  destruct (p audio_path) as [e|[|x a]]; try discriminate.
  now intros [= <-].
Qed.


(** The module variables after lines 54-151 are those that the load of
    lines 56-72 leaves. *)
Lemma after_save_globals (w : World) (g : Globals.t) (diarize : bool)
  (audio_path : str) :
  snd (after_save w g diarize audio_path) = snd (load_pipeline w g diarize).
Proof.
  unfold after_save. destruct (load_pipeline w g diarize) as [[e|[]] g'];
    [reflexivity|].
  now destruct (transcribe w audio_path).
Qed.

Lemma load_pipeline_loaded (w : World) (g : Globals.t) (diarize : bool)
  (pipeline : Pyannote.Pipeline) :
  Globals.diarization_pipeline g = Some pipeline ->
  load_pipeline w g diarize = (inr tt, g).
Proof. unfold load_pipeline. intros ->. now destruct diarize. Qed.

Lemma load_pipeline_off (w : World) (g : Globals.t) :
  load_pipeline w g false = (inr tt, g).
Proof. reflexivity. Qed.

(** * The claims *)

Local Open Scope float_scope.

(** C1: the test of line 121 is the full containment of the claim, but
    no word that passes it is returned with a speaker: the items of
    [itertracks(yield_label=True)] have three values, and line 114
    raises before the loop over the words is reached. Here the word [b]
    is fully inside the second interval and no other, and lines 92-151
    raise (the reply has status 500) instead of listing [b] with
    SPEAKER_01. *)
Theorem contained_word_is_not_returned :
  let b := wd "b" 0.6 1.0 0.8 in
  inside b (Segment.make 0.6 1.0) = true
  /\ inside b (Segment.make 0.0 0.5) = false
  /\ two_tracks wav
     = inr [track 0.0 0.5 "A" "SPEAKER_00"; track 0.6 1.0 "B" "SPEAKER_01"]
  /\ answer working (on_cpu two_tracks) true wav [wd "a" 0.0 0.5 0.9; b]
       (py "en")
     = inl (py "too many values to unpack (expected 2)").
Proof. repeat split. Qed.



(** C3: for the WordTimeline [a 0.0-0.5, b 0.6-1.0], which is the one
    that [transcribe working] gives, no transcript is returned with the
    SpeakerTimeline of one interval 0.0-1.0 of SPEAKER_00, nor with the
    intervals 0.0-0.5 of SPEAKER_00 and 0.6-1.0 of SPEAKER_01: in both
    scenarios lines 54-151 raise at line 114 (and lines 153-155 reply
    with the message of this exception and status 500). *)
Theorem scenarios_raise :
  match transcribe working wav with
  | inl _ => []
  | inr whisper => all_whisper_words (segments whisper)
  end = two_words
  /\ one_track wav = inr [track 0.0 1.0 "A" "SPEAKER_00"]
  /\ fst (after_save working (on_cpu one_track) true wav)
     = inl (py "too many values to unpack (expected 2)")
  /\ two_tracks wav
     = inr [track 0.0 0.5 "A" "SPEAKER_00"; track 0.6 1.0 "B" "SPEAKER_01"]
  /\ fst (after_save working (on_cpu two_tracks) true wav)
     = inl (py "too many values to unpack (expected 2)").
Proof. repeat split. Qed.

(** C4: with diarization on, a word of the WordTimeline that is fully
    inside no interval could as well be absent: the response (per-word
    list and transcript) is the one obtained without it, no entry of the
    per-word list is made from it, and the accumulated transcript is the
    same too. A word across the boundary of two intervals is such a
    word. *)
Theorem uncontained_word_is_omitted (pipeline : Pipeline) (audio_path : str)
  (ws1 : list Word.t) (word : Word.t) (ws2 : list Word.t)
  (info_language : str) :
  (forall track, In track (pipeline audio_path) ->
     inside word (fst track) = false) ->
  let r := respond true (Some pipeline) audio_path (ws1 ++ word :: ws2)
             info_language in
  r = respond true (Some pipeline) audio_path (ws1 ++ ws2) info_language
  /\ (forall c, In c (r_chunks r) -> word_of_chunk c <> word)
  /\ final_transcript_text (diarized (ws1 ++ word :: ws2)
                              (pipeline audio_path))
     = final_transcript_text (diarized (ws1 ++ ws2) (pipeline audio_path)).
Proof.
  intros H.
  assert (E : diarized (ws1 ++ word :: ws2) (pipeline audio_path)
              = diarized (ws1 ++ ws2) (pipeline audio_path)).
  { unfold diarized. f_equal.
    apply (tracks_loop_select (ws1 ++ word :: ws2) (ws1 ++ ws2)).
    intros tr Ht. apply select_without. now apply H. }
  simpl. rewrite !respond_on, E. repeat split.
  intros c Hc. simpl in Hc. apply in_diarized_chunks in Hc.
  destruct Hc as (tr & w & Ht & _ & Hi & ->).
  rewrite word_of_chunk_chunk. intros ->.
  rewrite (H tr Ht) in Hi. discriminate.
Qed.

Lemma uncontained_word_witness :
  r_text (respond true (Some two_speakers) wav
            (wd "a" 0.0 0.5 0.9 :: across :: [wd "b" 0.6 1.0 0.8]) (py "en"))
  = py "SPEAKER_00: a" ++ LF ++ py "SPEAKER_01: b".
Proof.
  assert (H : forall tr, In tr (two_speakers wav) ->
                inside across (fst tr) = false).
  { intros tr [<- | [<- | []]]; reflexivity. }
  pose proof (uncontained_word_is_omitted two_speakers wav
                [wd "a" 0.0 0.5 0.9] across [wd "b" 0.6 1.0 0.8] (py "en") H)
    as [E _].
  simpl app in E. rewrite E. vm_compute. reflexivity.
Defined.

(** C5: with diarization off (not requested, or no pipeline), the returned
    transcript is the word texts joined by single spaces and trimmed, in
    the order of the WordTimeline, and the per-word list has one entry per
    word, in that order, each with no speaker. *)
Theorem diarization_off (diarize : bool)
  (diarization_pipeline : option Pipeline) (audio_path : str)
  (words : list Word.t) (info_language : str) :
  diarize = false \/ diarization_pipeline = None ->
  let r := respond diarize diarization_pipeline audio_path words
             info_language in
  r_text r = strip (join (py " ") (List.map Word.text words))
  /\ List.map word_of_chunk (r_chunks r) = words
  /\ Forall (fun c => Chunk.speaker c = None) (r_chunks r).
Proof.
  intros H. rewrite (respond_off _ _ _ _ _ H). simpl. repeat split.
  - now rewrite full_text_join, strip_idem.
  - rewrite map_map. rewrite <- (map_id words) at 2.
    apply map_ext. now intros [].
  - apply Forall_forall. intros c Hc. apply in_map_iff in Hc.
    now destruct Hc as (w & <- & _).
Qed.

Lemma diarization_off_witness :
  r_text (respond false (Some one_speaker) wav hello_world (py "en"))
  = py "hello world".
Proof.
  pose proof (diarization_off false (Some one_speaker) wav hello_world
                (py "en") (or_introl eq_refl)) as H.
  destruct H as [H _]. rewrite H. vm_compute. reflexivity.
Defined.

(** C6: in both modes, every entry of the per-word list has the text, the
    start and end times and the probability of a word of the WordTimeline;
    only the speaker is added. *)
Theorem entries_copy_a_word (diarize : bool)
  (diarization_pipeline : option Pipeline) (audio_path : str)
  (words : list Word.t) (info_language : str) :
  Forall
    (fun c => exists word,
       In word words
       /\ Chunk.text c = Word.text word
       /\ Chunk.timestamp c = (Word.start word, Word.end_ word)
       /\ Chunk.score c = Word.probability word)
    (r_chunks (respond diarize diarization_pipeline audio_path words
                 info_language)).
Proof.
  apply Forall_forall. intros c Hc.
  destruct diarize, diarization_pipeline as [pipeline|];
    try (simpl in Hc; apply in_map_iff in Hc;
         destruct Hc as (w & <- & Hw); now exists w).
  rewrite respond_on in Hc. simpl in Hc. apply in_diarized_chunks in Hc.
  destruct Hc as (tr & w & _ & Hw & _ & ->). now exists w.
Qed.

(** C7: with an interval of SPEAKER_00, one of SPEAKER_01 and one of
    SPEAKER_00 again, each with a word fully inside it, no transcript is
    returned: line 114 raises at the first interval. *)
Theorem interrupted_speaker_raises :
  interrupted_tracks wav
  = inr [track 0.0 1.0 "A" "SPEAKER_00"; track 1.0 2.0 "B" "SPEAKER_01";
         track 2.0 3.0 "C" "SPEAKER_00"]
  /\ List.map (fun '(speech_segment, _, _) => select three_words speech_segment)
       [track 0.0 1.0 "A" "SPEAKER_00"; track 1.0 2.0 "B" "SPEAKER_01";
        track 2.0 3.0 "C" "SPEAKER_00"]
     = [[wd "yes" 0.2 0.4 0.9]; [wd "no" 1.2 1.4 0.9];
        [wd "well" 2.2 2.4 0.9]]
  /\ answer working (on_cpu interrupted_tracks) true wav three_words (py "en")
     = inl (py "too many values to unpack (expected 2)").
Proof. repeat split. Qed.

(** C8: with diarization on and an empty SpeakerTimeline, the returned
    transcript is the empty string and the per-word list is empty,
    whatever the WordTimeline. *)
Theorem empty_timeline_gives_empty_output (pipeline : Pipeline)
  (audio_path : str) (words : list Word.t) (info_language : str) :
  pipeline audio_path = [] ->
  let r := respond true (Some pipeline) audio_path words info_language in
  r_text r = [] /\ r_chunks r = [].
Proof. intros E. rewrite respond_on, E. split; reflexivity. Qed.

Lemma empty_timeline_witness :
  silent wav = []
  /\ r_text (respond true (Some silent) wav two_words (py "en")) = []
  /\ r_chunks (respond true (Some silent) wav two_words (py "en")) = [].
Proof.
  split; [reflexivity|].
  apply (empty_timeline_gives_empty_output silent wav two_words (py "en")).
  reflexivity.
Defined.

(** C9, as stated, fails: lines 97-144 write to the standard output on
    every run, and they read the module variable [diarization_pipeline]:
    two runs on the same words with the same flag give other results
    when only this variable differs. *)
Lemma alignment_is_not_pure :
  fst (alignment working fresh false wav two_words)
  = [py "Standard transcription (no diarization) complete."]
  /\ fst (alignment working (on_cpu no_tracks) true wav two_words)
     = [py "Performing speaker diarization..."; py "Diarization complete."]
  /\ snd (alignment working fresh true wav two_words)
     = inr (py "a b", List.map (chunk None) two_words)
  /\ snd (alignment working (on_cpu no_tracks) true wav two_words)
     = inr ([], []).
Proof. repeat split. Qed.

(** C9 (amended): lines 97-144 are deterministic but not pure. What
    they print and what they give (the transcript and the per-word
    list, or an exception) is a function of the WordTimeline, of the
    flag and of what they get through the module variable
    [diarization_pipeline]: two runs that agree on these agree on both,
    whatever else differs. Every run prints at least one line, and the
    module variables after lines 54-151 are those left by the load of
    lines 56-72: lines 74-151 write none. *)
Theorem alignment_reads_the_pipeline_and_prints (w1 w2 : World)
  (g1 g2 : Globals.t) (diarize : bool) (audio_path1 audio_path2 : str)
  (words : list Word.t) :
  diarization_results g1 diarize audio_path1
  = diarization_results g2 diarize audio_path2 ->
  too_many_values w1 = too_many_values w2 ->
  alignment w1 g1 diarize audio_path1 words
  = alignment w2 g2 diarize audio_path2 words
  /\ fst (alignment w1 g1 diarize audio_path1 words) <> []
  /\ snd (after_save w1 g1 diarize audio_path1)
     = snd (load_pipeline w1 g1 diarize).
Proof.
  intros R T. rewrite !alignment_eq, R, T. split; [reflexivity|].
  split; [|apply after_save_globals].
  now destruct (diarization_results g2 diarize audio_path2)
    as [[e|[|x a]]|].
Qed.

Lemma alignment_reads_the_pipeline_witness :
  alignment working fresh false wav two_words
  = alignment tokenless loaded false (py "temp_2_other.wav") two_words.
Proof.
  apply (alignment_reads_the_pipeline_and_prints working tokenless fresh
           loaded false wav (py "temp_2_other.wav") two_words);
    reflexivity.
Defined.

(** C10: under diarization, when the buffered words join and trim to the
    empty string, the closure appends nothing to the transcript (and
    empties the buffer). So the accumulated transcript is made of lines
    [label: text] whose label is a label of the SpeakerTimeline and whose
    text is not empty and is trimmed: ": " is always followed by a
    character that is not whitespace. When, moreover, no word text and no
    label contains a newline, these are the lines of the transcript as a
    text, and none of them is a label followed by ": " and nothing. *)
Theorem blank_segment_gives_no_line (words : list Word.t) (tracks : Tracks) :
  (forall f : Frame,
     segment_text (current_speaker_words f) = [] ->
     final_transcript_text (add_speaker_segment f) = final_transcript_text f
     /\ current_speaker_words (add_speaker_segment f) = [])
  /\ (exists lines : list (str * str),
        final_transcript_text (diarized words tracks)
        = concat (List.map (fun l => line (fst l) (snd l)) lines)
        /\ Forall (fun l => In (fst l) (List.map snd tracks)
                            /\ snd l <> []
                            /\ strip (snd l) = snd l) lines)
  /\ ((forall word, In word words -> one_line (Word.text word)) ->
      (forall track, In track tracks -> one_line (snd track)) ->
      forall l speaker_label,
        In l (split_lines (final_transcript_text (diarized words tracks))) ->
        l <> speaker_label ++ py ": ").
Proof.
  destruct (diarized_lines words tracks) as (lines & Ht & Hl).
  rewrite Forall_forall in Hl.
  split; [|split].
  - intros f H. split; [|apply add_speaker_segment_words].
    unfold add_speaker_segment. destruct (truthy (current_speaker_words f));
      [|reflexivity].
    simpl. now rewrite H.
  - exists lines. split; [exact Ht|]. apply Forall_forall. intros l Hin.
    destruct (Hl l Hin) as (H1 & H2 & ws & _ & E).
    repeat split; [exact H1 | exact H2 |].
    rewrite E. apply segment_text_stripped.
  - intros Hwords Htracks l speaker_label Hin Z. rewrite Ht in Hin.
    rewrite split_lines_lines in Hin.
    + apply in_app_iff in Hin. destruct Hin as [Hin | [<- | []]].
      * apply in_map_iff in Hin. destruct Hin as (x & <- & Hx).
        destruct (Hl x Hx) as (_ & H2 & ws & _ & E).
        cbv beta in Z. unfold str in E, Z, H2. rewrite E in H2, Z.
        destruct (strip_last _ H2) as (t & c & S & Hc).
        fold (segment_text ws) in S. rewrite S in Z.
        change (py ": ") with ([58%N] ++ [32%N]) in Z at 2.
        rewrite !app_assoc in Z. apply app_inj_tail in Z.
        destruct Z as [_ ->]. discriminate.
      * symmetry in Z. apply app_eq_nil in Z. destruct Z as [_ Z].
        discriminate.
    + apply Forall_forall. intros x Hx.
      destruct (Hl x Hx) as (H1 & _ & ws & Hws & E).
      apply in_map_iff in H1. destruct H1 as (tr & Etr & Htr).
      intros Hc. cbv beta in Hc. unfold str in E, Etr, Hc.
      rewrite <- Etr, E, !in_app_iff in Hc. destruct Hc as [Hc | [Hc | Hc]].
      * exact (Htracks tr Htr Hc).
      * simpl in Hc. destruct Hc as [Hc | [Hc | []]]; discriminate.
      * revert Hc. apply one_line_segment_text.
        intros w Hw. apply Hwords. now apply Hws.
Qed.

Lemma blank_segment_witness :
  final_transcript_text
    (add_speaker_segment
       {| final_transcript_text := py "SPEAKER_00: a" ++ LF;
          word_chunks_for_frontend := [];
          current_speaker := Some (py "SPEAKER_01");
          current_speaker_words := [wd "" 0.6 1.0 0.8; wd "" 1.0 1.2 0.3] |})
  = py "SPEAKER_00: a" ++ LF
  /\ ~ In (py "SPEAKER_01: ")
        (split_lines
           (final_transcript_text (diarized two_words (two_speakers wav)))).
Proof.
  split.
  - apply (proj1 (blank_segment_gives_no_line [] [])). reflexivity.
  - intros H.
    assert (Hwords : forall w, In w two_words -> one_line (Word.text w)).
    { intros w [<- | [<- | []]]; vm_compute; intuition discriminate. }
    assert (Htracks : forall tr, In tr (two_speakers wav) ->
                        one_line (snd tr)).
    { intros tr [<- | [<- | []]]; vm_compute; intuition discriminate. }
    exact (proj2 (proj2 (blank_segment_gives_no_line two_words
                           (two_speakers wav)))
             Hwords Htracks (py "SPEAKER_01: ") (py "SPEAKER_01") H eq_refl).
Defined.

(** * Further properties of the alignment *)

(** Whenever the closure runs, the transcript accumulated so far is empty
    or ends with a newline: the test of line 109 never holds, and line 110
    never adds a separating newline. *)
Theorem separator_is_never_added (words : list Word.t) (tracks : Tracks) :
  let t := final_transcript_text (tracks_loop words tracks initial_frame) in
  truthy t && negb (endswith t LF) = false.
Proof. apply (tracks_loop_closed words tracks initial_frame closed_nil). Qed.

(** With diarization on, no entry of the per-word list is without a
    speaker, and every speaker is a label of the SpeakerTimeline. *)
Theorem diarized_entries_have_a_speaker (pipeline : Pipeline)
  (audio_path : str) (words : list Word.t) (info_language : str) :
  Forall
    (fun c => exists speaker_label,
       Chunk.speaker c = Some speaker_label
       /\ In speaker_label (List.map snd (pipeline audio_path)))
    (r_chunks (respond true (Some pipeline) audio_path words info_language)).
Proof.
  apply Forall_forall. intros c Hc. rewrite respond_on in Hc. simpl in Hc.
  apply in_diarized_chunks in Hc. destruct Hc as (tr & w & Ht & _ & _ & ->).
  exists (snd tr). split; [reflexivity|]. now apply in_map.
Qed.

(** The returned transcript is empty exactly when there is nothing to
    say: when every word has a blank text or, the pipeline having been
    called, in every response (one is then returned for an empty
    SpeakerTimeline only). *)
Theorem transcript_is_empty_when_nothing_is_said (w : World) (g : Globals.t)
  (diarize : bool) (audio_path : str) (words : list Word.t)
  (info_language : str) (response : Response) :
  answer w g diarize audio_path words info_language = inr response ->
  (r_text response = []
   <-> diarization_results g diarize audio_path <> None
       \/ forall word, In word words -> blank (Word.text word) = true).
Proof.
  rewrite answer_eq.
  destruct (diarization_results g diarize audio_path) as [[e|[|x a]]|];
    try discriminate; intros [= <-]; simpl r_text.
  - split; [left; discriminate | reflexivity].
  - rewrite full_text_join, strip_idem, strip_blank.
    rewrite blank_join by reflexivity. rewrite forallb_forall. split.
    + intros H. right. intros x Hx. apply H. now apply in_map.
    + intros [H | H]; [now elim H|]. intros t Ht.
      apply in_map_iff in Ht. destruct Ht as (x & <- & Hx). now apply H.
Qed.

Lemma transcript_is_empty_witness :
  exists response,
    answer working fresh false wav [wd "" 0.2 0.4 0.1] (py "en")
    = inr response
    /\ r_text response = [].
Proof.
  eexists. split; [reflexivity|].
  apply (proj2 (transcript_is_empty_when_nothing_is_said working fresh false
                  wav [wd "" 0.2 0.4 0.1] (py "en") _ eq_refl)).
  right. intros word [<- | []]. reflexivity.
Defined.

(** Every response of the code as it runs is the response on the
    unpacked items, for the items that the pipeline of the module
    variable gives: what holds of every response of [respond] holds of
    every response that is returned. *)
Theorem replies_are_responses (w : World) (g : Globals.t) (diarize : bool)
  (audio_path : str) (words : list Word.t) (info_language : str)
  (response : Response) :
  answer w g diarize audio_path words info_language = inr response ->
  response
  = respond diarize (option_map unpacked (Globals.diarization_pipeline g))
      audio_path words info_language.
Proof. apply answer_respond. Qed.

Lemma replies_are_responses_witness :
  respond false None wav hello_world (py "en")
  = {| r_text := py "hello world";
       r_chunks := List.map (chunk None) hello_world;
       r_language := py "en" |}.
Proof.
  symmetry.
  apply (replies_are_responses working fresh false wav hello_world (py "en")).
  reflexivity.
Defined.

Lemma concat_lines_last (lines : list (str * str)) (l : str * str) :
  concat (List.map (fun l => line (fst l) (snd l)) (lines ++ [l]))
  = (concat (List.map (fun l => line (fst l) (snd l)) lines)
     ++ fst l ++ py ": " ++ snd l) ++ LF.
Proof.
  rewrite map_app, concat_app. simpl. unfold line.
  now rewrite app_nil_r, <- !app_assoc.
Qed.

Lemma rstrip_line (s text : str) :
  strip text <> [] -> rstrip ((s ++ strip text) ++ LF) = s ++ strip text.
Proof.
  intros H. destruct (strip_last text H) as (t & c & E & Hc).
  rewrite E. rewrite rstrip_app. simpl blank. cbv iota.
  rewrite app_assoc, rstrip_app. simpl. rewrite Hc. simpl.
  unfold rstrip. simpl. now rewrite Hc.
Qed.

(** What line 148 removes: when no label starts with whitespace, the
    accumulated transcript is empty, and so is the returned one, or it is
    the returned transcript followed by one newline. *)
Theorem returned_transcript_lacks_the_last_newline (pipeline : Pipeline)
  (audio_path : str) (words : list Word.t) (info_language : str) :
  (forall track, In track (pipeline audio_path) -> starts_clean (snd track)) ->
  let t := final_transcript_text (diarized words (pipeline audio_path)) in
  let r := r_text (respond true (Some pipeline) audio_path words
                     info_language) in
  (t = [] /\ r = []) \/ t = r ++ LF.
Proof.
  intros H t r.
  assert (R : r = strip t) by reflexivity.
  destruct (diarized_lines words (pipeline audio_path)) as (lines & Ht & Hl).
  fold t in Ht. rewrite Forall_forall in Hl.
  destruct lines as [|l1 ls]; [left; now rewrite R, Ht|]. right.
  assert (L : lstrip t = t).
  { apply lstrip_fixed. rewrite Ht. simpl. unfold line.
    destruct (Hl l1 (or_introl eq_refl)) as (H1 & _).
    apply in_map_iff in H1. destruct H1 as (tr & E & Htr).
    specialize (H tr Htr). unfold Tracks, str in *. rewrite E in H.
    destruct (fst l1); [reflexivity | exact H]. }
  destruct (exists_last (l:=l1 :: ls)) as (ls' & ln & E); [discriminate|].
  rewrite E in Ht, Hl. rewrite concat_lines_last in Ht.
  destruct (Hl ln) as (_ & N & ws & _ & S);
    [apply in_app_iff; right; now left|].
  unfold str in *. rewrite S in Ht, N. unfold segment_text in Ht, N.
  rewrite R. unfold strip at 1. rewrite L, Ht.
  set (body := concat _) in *.
  replace (body ++ fst ln ++ py ": "
           ++ strip (join (py " ") (List.map Word.text ws)))
    with ((body ++ fst ln ++ py ": ")
          ++ strip (join (py " ") (List.map Word.text ws)))
    by now rewrite <- !app_assoc.
  now rewrite rstrip_line.
Qed.

Lemma returned_transcript_witness :
  final_transcript_text (diarized two_words (two_speakers wav))
  = r_text (respond true (Some two_speakers) wav two_words (py "en")) ++ LF.
Proof.
  destruct (returned_transcript_lacks_the_last_newline two_speakers wav
              two_words (py "en")) as [[E _] | E].
  - intros tr [<- | [<- | []]]; reflexivity.
  - vm_compute in E. discriminate.
  - exact E.
Defined.

(** Every text of the response is trimmed: the transcript, in both modes,
    and the text of every entry of the per-word list, since the words are
    trimmed when they are collected (line 86). *)
Theorem response_is_trimmed (diarize : bool)
  (diarization_pipeline : option Pipeline) (audio_path : str)
  (whisper : Transcription) :
  let r := transcribe_audio diarize diarization_pipeline audio_path whisper in
  strip (r_text r) = r_text r
  /\ Forall (fun c => strip (Chunk.text c) = Chunk.text c) (r_chunks r).
Proof.
  simpl. split.
  - unfold transcribe_audio, respond.
    destruct diarize, diarization_pipeline; simpl; apply strip_idem.
  - pose proof (all_whisper_words_trimmed (segments whisper)) as T.
    rewrite Forall_forall in T. apply Forall_forall. intros c Hc.
    unfold transcribe_audio in Hc.
    destruct diarize, diarization_pipeline as [pipeline|];
      try (simpl in Hc; apply in_map_iff in Hc;
           destruct Hc as (w & <- & Hw); now apply T).
    rewrite respond_on in Hc. simpl in Hc. apply in_diarized_chunks in Hc.
    destruct Hc as (tr & w & _ & Hw & _ & ->). now apply T.
Qed.

(** * The route *)

Lemma startswith_temp (rest : str) :
  startswith (py "temp_" ++ rest) (py "/") = false.
Proof. reflexivity. Qed.

Lemma temporary_path_eq (w : World) (file : FileStorage.t) :
  exists separator name : str,
    temporary_path w file
    = getcwd w ++ separator ++ py "temp_" ++ decimal (getpid w) ++ py "_"
      ++ name
    /\ (separator = [] \/ separator = py "/")
    /\ (name = py "uploaded_audio"
        \/ (FileStorage.filename file = Some name /\ name <> [])).
Proof.
  unfold temporary_path.
  set (name := match FileStorage.filename file with
               | Some n => if truthy n then n else py "uploaded_audio"
               | None => py "uploaded_audio"
               end).
  assert (N : name = py "uploaded_audio"
              \/ (FileStorage.filename file = Some name /\ name <> [])).
  { unfold name. destruct (FileStorage.filename file) as [[|c n]|]; simpl;
      auto. right. split; [reflexivity | discriminate]. }
  unfold path_join.
  replace (py "temp_" ++ decimal (getpid w) ++ py "_" ++ name)
    with (py "temp_" ++ (decimal (getpid w) ++ py "_" ++ name))
    by reflexivity.
  rewrite startswith_temp.
  destruct (negb (truthy (getcwd w)) || endswith (getcwd w) (py "/")).
  - exists [], name. auto.
  - exists (py "/"), name. auto.
Qed.

(** The uploaded name cannot move the temporary file: even a name that
    is an absolute path is only appended, after the working directory
    and [temp_<pid>_]. *)
Theorem temporary_path_is_prefixed (w : World) (file : FileStorage.t) :
  exists separator name : str,
    temporary_path w file
    = getcwd w ++ separator ++ py "temp_" ++ decimal (getpid w) ++ py "_"
      ++ name
    /\ (separator = [] \/ separator = py "/")
    /\ (name = py "uploaded_audio"
        \/ (FileStorage.filename file = Some name /\ name <> [])).
Proof. apply temporary_path_eq. Qed.

Lemma temporary_path_truthy (w : World) (file : FileStorage.t) :
  truthy (temporary_path w file) = true.
Proof.
  destruct (temporary_path_eq w file) as (sep & name & E & S & _).
  rewrite E. destruct (getcwd w); [|reflexivity].
  destruct S as [-> | ->]; reflexivity.
Qed.

Lemma load_pipeline_device (w : World) (g : Globals.t) (diarize : bool) :
  Globals.device (snd (load_pipeline w g diarize)) = Globals.device g.
Proof.
  unfold load_pipeline.
  destruct diarize, (Globals.diarization_pipeline g), (environ w) as [t|];
    try reflexivity.
  destruct (negb (truthy t)); [reflexivity|].
  destruct (from_pretrained w t) as [e|p]; [reflexivity|].
  destruct (str_eqb _ _); [|reflexivity]. now destruct p, (to w).
Qed.

(** Where a pipeline in the module variable comes from. *)
Lemma load_pipeline_origin (w : World) (g : Globals.t) (diarize : bool)
  (pipeline : Pyannote.Pipeline) :
  Globals.diarization_pipeline g = None ->
  Globals.diarization_pipeline (snd (load_pipeline w g diarize))
  = Some pipeline ->
  fst (load_pipeline w g diarize) = inr tt
  /\ diarize = true
  /\ exists hf_token,
       environ w = Some hf_token /\ hf_token <> []
       /\ from_pretrained w hf_token = inr (Some pipeline)
       /\ (Globals.device g = py "cuda" -> to w = None).
Proof.
  unfold load_pipeline. intros N.
  destruct diarize; simpl; rewrite ?N; simpl; [|congruence].
  destruct (environ w) as [t|]; simpl; [|congruence].
  destruct t as [|c t]; simpl; [congruence|].
  destruct (from_pretrained w (c :: t)) as [e|p] eqn:F; simpl; [congruence|].
  destruct (str_eqb (Globals.device g) (py "cuda")) eqn:D.
  - destruct p as [p|]; [|simpl; congruence].
    destruct (to w) eqn:T; simpl; [congruence|]. intros [= ->].
    repeat split. exists (c :: t). repeat split; [discriminate | exact F].
  - simpl. intros ->. repeat split. exists (c :: t).
    repeat split; [discriminate | exact F |].
    intros E. apply str_eqb_neq in D. contradiction.
Qed.

(** A load asked for that does not raise and leaves no pipeline: there
    was none, [from_pretrained] returned [None], and not on CUDA. *)
Lemma load_pipeline_none (w : World) (g : Globals.t) :
  fst (load_pipeline w g true) = inr tt ->
  Globals.diarization_pipeline (snd (load_pipeline w g true)) = None ->
  Globals.diarization_pipeline g = None
  /\ Globals.device g <> py "cuda"
  /\ exists hf_token,
       environ w = Some hf_token /\ hf_token <> []
       /\ from_pretrained w hf_token = inr None.
Proof.
  unfold load_pipeline.
  destruct (Globals.diarization_pipeline g) as [p|] eqn:P; simpl;
    [congruence|].
  destruct (environ w) as [t|]; simpl; [|discriminate].
  destruct t as [|c t]; simpl; [discriminate|].
  destruct (from_pretrained w (c :: t)) as [e|p] eqn:F; simpl;
    [discriminate|].
  destruct (str_eqb (Globals.device g) (py "cuda")) eqn:D.
  - destruct p as [p|]; [|discriminate].
    destruct (to w); simpl; [discriminate | congruence].
  - simpl. intros _ ->. split; [reflexivity|].
    split; [now apply str_eqb_neq|].
    exists (c :: t). repeat split; [discriminate | exact F].
Qed.

(** A response comes from a load that did not raise, and is the
    response of [answer] with the module variables after it. *)
Lemma after_save_ok (w : World) (g : Globals.t) (diarize : bool)
  (audio_path : str) (response : Response) :
  fst (after_save w g diarize audio_path) = inr response ->
  fst (load_pipeline w g diarize) = inr tt
  /\ exists whisper,
       transcribe w audio_path = inr whisper
       /\ answer w (snd (load_pipeline w g diarize)) diarize audio_path
            (all_whisper_words (segments whisper)) (language whisper)
          = inr response.
Proof.
  unfold after_save. destruct (load_pipeline w g diarize) as [[e|[]] g'];
    simpl; [discriminate|].
  destruct (transcribe w audio_path) as [e|t]; simpl; [discriminate|].
  intros H. split; [reflexivity|]. now exists t.
Qed.

(** The route on an accepted upload. *)
Lemma route_accepted (lower_unicode : str -> str) (g : Globals.t)
  (files : list str) (w : World) (req : Request.t) (file : FileStorage.t) :
  accepted req = Some file ->
  route lower_unicode g files w req
  = let audio_path := temporary_path w file in
    let tried :=
      match FileStorage.save file with
      | Some (e, created) =>
          (inl e, g, if created then audio_path :: files else files)
      | None =>
          (fst (after_save w g (requested lower_unicode req) audio_path),
           snd (after_save w g (requested lower_unicode req) audio_path),
           audio_path :: files)
      end in
    (match fst (fst tried) with
     | inl e => error e 500
     | inr response => ok response
     end,
     snd (fst tried),
     if existsb (str_eqb audio_path) (snd tried)
     then remove_file audio_path (snd tried) else snd tried).
Proof.
  unfold accepted. intros H.
  destruct (Request.file req) as [f|] eqn:R; [|discriminate].
  assert (f = file) as ->
    by (destruct (FileStorage.filename f) as [[|c n]|]; congruence).
  assert (N : match FileStorage.filename file with
              | Some name => str_eqb name []
              | None => false
              end = false)
    by (destruct (FileStorage.filename file) as [[|c n]|];
        try reflexivity; discriminate).
  unfold route. rewrite R, N.
  destruct (FileStorage.save file) as [[e created]|];
    [|destruct (after_save _ _ _ _) as [r g']]; simpl;
    now rewrite temporary_path_truthy.
Qed.

Lemma route_refused (lower_unicode : str -> str) (g : Globals.t)
  (files : list str) (w : World) (req : Request.t) :
  accepted req = None ->
  exists message,
    route lower_unicode g files w req = (error message 400, g, files).
Proof.
  unfold accepted, route. destruct (Request.file req) as [f|]; [|eauto].
  destruct (FileStorage.filename f) as [[|c n]|]; try discriminate.
  intros _. eexists. reflexivity.
Qed.

Lemma route_globals (lower_unicode : str -> str) (g : Globals.t)
  (files : list str) (w : World) (req : Request.t) :
  globals_of (route lower_unicode g files w req) = g
  \/ exists file,
       accepted req = Some file /\ FileStorage.save file = None
       /\ globals_of (route lower_unicode g files w req)
          = snd (load_pipeline w g (requested lower_unicode req)).
Proof.
  destruct (accepted req) as [file|] eqn:A.
  - rewrite (route_accepted lower_unicode g files w req file A).
    unfold globals_of. cbv zeta. cbn [fst snd].
    destruct (FileStorage.save file) as [[e created]|] eqn:S; cbn [fst snd].
    + now left.
    + right. exists file. split; [reflexivity|]. split; [exact S|].
      apply after_save_globals.
  - destruct (route_refused lower_unicode g files w req A) as [m ->].
    now left.
Qed.

Lemma route_keeps_loaded (lower_unicode : str -> str) (g : Globals.t)
  (files : list str) (w : World) (req : Request.t)
  (pipeline : Pyannote.Pipeline) :
  Globals.diarization_pipeline g = Some pipeline ->
  globals_of (route lower_unicode g files w req) = g.
Proof.
  intros H.
  destruct (route_globals lower_unicode g files w req)
    as [E | (file & _ & _ & E)]; [exact E|].
  now rewrite E, (load_pipeline_loaded w g _ pipeline H).
Qed.

Lemma serve_cons (lower_unicode : str -> str) (g : Globals.t)
  (files : list str) (w : World) (req : Request.t)
  (rest : list (World * Request.t)) :
  globals_of (serve lower_unicode g files ((w, req) :: rest))
  = globals_of
      (serve lower_unicode
         (globals_of (route lower_unicode g files w req))
         (files_of (route lower_unicode g files w req)) rest).
Proof.
  simpl. destruct (route lower_unicode g files w req) as [[reply g'] files'].
  unfold globals_of, files_of. cbn [fst snd].
  now destruct (serve lower_unicode g' files' rest) as [[replies g''] fs].
Qed.

(** The pipeline is loaded at most once: once the module variable holds
    a pipeline, no request replaces it or clears it, whatever the
    requests ask for and whatever is raised while they are served. *)
Theorem pipeline_is_loaded_once (lower_unicode : str -> str)
  (g : Globals.t) (files : list str) (requests : list (World * Request.t))
  (pipeline : Pyannote.Pipeline) :
  Globals.diarization_pipeline g = Some pipeline ->
  globals_of (serve lower_unicode g files requests) = g.
Proof.
  intros H. revert files.
  induction requests as [|[w req] rest IH]; intros files; [reflexivity|].
  rewrite serve_cons.
  rewrite (route_keeps_loaded lower_unicode g files w req pipeline H).
  apply IH.
Qed.

Lemma pipeline_is_loaded_once_witness :
  globals_of
    (serve (fun s => s) loaded []
       [(tokenless, upload "a.wav" (Some "true"%string));
        (working, upload "b.wav" None)])
  = loaded.
Proof.
  apply (pipeline_is_loaded_once (fun s => s) loaded [] _ two_tracks).
  reflexivity.
Defined.

(** A pipeline gets into the module variable only by a complete load:
    when a request finds none and leaves one, the request asked for
    diarization, its upload was accepted and saved, the token was set
    and not empty, [from_pretrained] returned that pipeline and, on
    CUDA, [to] did not raise. In all other cases, a failed load
    included, the variable is still [None]; the device never changes. *)
Theorem pipeline_comes_from_a_complete_load (lower_unicode : str -> str)
  (g : Globals.t) (files : list str) (w : World) (req : Request.t) :
  let g' := globals_of (route lower_unicode g files w req) in
  Globals.device g' = Globals.device g
  /\ forall pipeline,
       Globals.diarization_pipeline g = None ->
       Globals.diarization_pipeline g' = Some pipeline ->
       requested lower_unicode req = true
       /\ exists file hf_token,
            accepted req = Some file /\ FileStorage.save file = None
            /\ environ w = Some hf_token /\ hf_token <> []
            /\ from_pretrained w hf_token = inr (Some pipeline)
            /\ (Globals.device g = py "cuda" -> to w = None).
Proof.
  intros g'. subst g'.
  destruct (route_globals lower_unicode g files w req)
    as [E | (file & A & S & E)]; rewrite E.
  - split; [reflexivity|]. congruence.
  - split; [apply load_pipeline_device|]. intros p N P.
    destruct (load_pipeline_origin w g _ p N P)
      as (_ & R & t & H1 & H2 & H3 & H4).
    split; [exact R|]. now exists file, t.
Qed.

Lemma pipeline_comes_from_a_complete_load_witness :
  requested (fun s => s) (upload "a.wav" (Some "True"%string)) = true.
Proof.
  apply (proj2 (pipeline_comes_from_a_complete_load (fun s => s) fresh []
                  working (upload "a.wav" (Some "True"%string)))
           two_tracks);
    reflexivity.
Defined.

Lemma route_ok (lower_unicode : str -> str) (g : Globals.t)
  (files : list str) (w : World) (req : Request.t) (response : Response) :
  reply_of (route lower_unicode g files w req) = ok response ->
  exists file,
    accepted req = Some file /\ FileStorage.save file = None
    /\ fst (after_save w g (requested lower_unicode req)
              (temporary_path w file)) = inr response
    /\ globals_of (route lower_unicode g files w req)
       = snd (load_pipeline w g (requested lower_unicode req)).
Proof.
  destruct (accepted req) as [file|] eqn:A.
  - rewrite (route_accepted lower_unicode g files w req file A).
    unfold reply_of, globals_of. cbv zeta. cbn [fst snd].
    destruct (FileStorage.save file) as [[e created]|] eqn:S; cbn [fst snd];
      [discriminate|].
    destruct (fst (after_save _ _ _ _)) as [e|r] eqn:R; [discriminate|].
    intros [= ->]. exists file. split; [reflexivity|]. split; [exact S|].
    split; [exact R | apply after_save_globals].
  - destruct (route_refused lower_unicode g files w req A) as [m ->].
    discriminate.
Qed.

(** What a successful reply says of the mode. When diarization was not
    requested, no entry of the per-word list has a speaker and the
    module variables are untouched. When it was requested, either a
    pipeline is loaded, it returned an empty annotation for the
    temporary file, and the transcript and the per-word list are empty;
    or no pipeline is loaded: there was none, [from_pretrained]
    returned [None] (not on CUDA, where this raises), and the request
    was served without diarization, no entry having a speaker. *)
Theorem mode_of_a_successful_reply (lower_unicode : str -> str)
  (g : Globals.t) (files : list str) (w : World) (req : Request.t)
  (response : Response) :
  reply_of (route lower_unicode g files w req) = ok response ->
  let g' := globals_of (route lower_unicode g files w req) in
  if requested lower_unicode req
  then match Globals.diarization_pipeline g' with
       | Some pipeline =>
           (exists file,
              accepted req = Some file
              /\ pipeline (temporary_path w file) = inr [])
           /\ r_text response = [] /\ r_chunks response = []
       | None =>
           Globals.diarization_pipeline g = None
           /\ Globals.device g <> py "cuda"
           /\ (exists hf_token,
                 environ w = Some hf_token /\ hf_token <> []
                 /\ from_pretrained w hf_token = inr None)
           /\ Forall (fun c => Chunk.speaker c = None) (r_chunks response)
       end
  else g' = g
       /\ Forall (fun c => Chunk.speaker c = None) (r_chunks response).
Proof.
  intros H g'. subst g'.
  destruct (route_ok lower_unicode g files w req response H)
    as (file & A & _ & R & ->).
  destruct (after_save_ok w g _ _ response R) as (L & whisper & _ & E).
  rewrite answer_eq in E. unfold diarization_results in E.
  assert (plain : forall words,
            Forall (fun c => Chunk.speaker c = None)
              (List.map (chunk None) words)).
  { intros words. apply Forall_forall. intros c Hc.
    apply in_map_iff in Hc. now destruct Hc as (x & <- & _). }
  destruct (requested lower_unicode req).
  - destruct (Globals.diarization_pipeline (snd (load_pipeline w g true)))
      as [p|] eqn:P.
    + destruct (p (temporary_path w file)) as [e|[|x a]] eqn:T;
        try discriminate.
      injection E as <-. split; [now exists file | now split].
    + destruct (load_pipeline_none w g L P) as (N & D & t).
      injection E as <-. repeat split; try assumption. apply plain.
  - injection E as <-. split; [reflexivity | apply plain].
Qed.

Lemma mode_of_a_successful_reply_witness :
  exists response,
    reply_of (route (fun s => s) fresh [] gated
                (upload "a.wav" (Some "true"%string)))
    = ok response
    /\ Forall (fun c => Chunk.speaker c = None) (r_chunks response).
Proof.
  eexists. split; [vm_compute; reflexivity|].
  apply (mode_of_a_successful_reply (fun s => s) fresh [] gated
           (upload "a.wav" (Some "true"%string))).
  vm_compute. reflexivity.
Defined.

(** A SpeakerTimeline that is not empty is an error: when the load does
    not raise and leaves a pipeline, the transcription does not raise,
    and the pipeline returns an annotation with a track, lines 54-151
    raise the [ValueError] of line 114 (and line 155 makes its message
    the reply, with status 500); the module variables are those left by
    the load. *)
Theorem nonempty_timeline_is_an_error (w : World) (g : Globals.t)
  (pipeline : Pyannote.Pipeline) (audio_path : str)
  (whisper : Transcription) (first : Segment.t * str * str)
  (rest : Pyannote.Annotation) :
  fst (load_pipeline w g true) = inr tt ->
  Globals.diarization_pipeline (snd (load_pipeline w g true))
  = Some pipeline ->
  transcribe w audio_path = inr whisper ->
  pipeline audio_path = inr (first :: rest) ->
  after_save w g true audio_path
  = (inl (too_many_values w), snd (load_pipeline w g true)).
Proof.
  intros L P T A. unfold after_save.
  destruct (load_pipeline w g true) as [loaded g'].
  simpl in L, P. subst loaded. rewrite T, answer_eq.
  unfold diarization_results. now rewrite P, A.
Qed.

Lemma nonempty_timeline_witness :
  after_save working fresh true wav
  = (inl (py "too many values to unpack (expected 2)"), loaded).
Proof.
  apply (nonempty_timeline_is_an_error working fresh two_tracks wav
           {| segments := [[ww " a" 0.0 0.5 0.9; ww " b" 0.6 1.0 0.8]];
              language := py "en" |}
           (track 0.0 0.5 "A" "SPEAKER_00")
           [track 0.6 1.0 "B" "SPEAKER_01"]);
    reflexivity.
Defined.

(** When [from_pretrained] returns [None] instead of raising, a request
    for diarization is not refused: on CUDA line 68 raises and the load
    fails, and on any other device the request is served as if
    diarization had not been requested, the module variable staying
    [None]. *)
Theorem missing_pipeline_is_served_plain (w : World) (g : Globals.t)
  (hf_token audio_path : str) :
  Globals.diarization_pipeline g = None ->
  environ w = Some hf_token -> hf_token <> [] ->
  from_pretrained w hf_token = inr None ->
  after_save w g true audio_path
  = if str_eqb (Globals.device g) (py "cuda")
    then (inl (failed_to_load none_has_no_to), g)
    else after_save w g false audio_path.
Proof.
  intros P E N F. destruct g as [device pipeline]. simpl in P. subst pipeline.
  unfold after_save, load_pipeline. simpl Globals.diarization_pipeline.
  cbv iota. rewrite E. destruct hf_token as [|c t]; [now elim N|].
  simpl truthy. simpl negb. cbv iota. rewrite F. simpl Globals.device.
  destruct (str_eqb device (py "cuda")); [reflexivity|].
  unfold set_pipeline. simpl Globals.device.
  destruct (transcribe w audio_path) as [e|whisper]; [reflexivity|].
  now rewrite !answer_eq.
Qed.

Lemma missing_pipeline_witness :
  after_save gated fresh true wav = after_save gated fresh false wav.
Proof.
  apply (missing_pipeline_is_served_plain gated fresh (py "hf_token") wav);
    try reflexivity.
  discriminate.
Defined.

Lemma ascii_lower_letter (c x : char) :
  (97 <= x <= 122)%N ->
  ascii_lower c = x <-> c = x \/ (c + 32)%N = x.
Proof.
  intros X. unfold ascii_lower.
  destruct ((65 <=? c) && (c <=? 90))%N eqn:E.
  - apply andb_prop in E. destruct E as [E1 E2].
    apply N.leb_le in E1, E2. lia.
  - apply andb_false_iff in E. destruct E as [E | E]; apply N.leb_gt in E;
      lia.
Qed.

(** Diarization is requested by the form field [diarize] spelling
    "true" in any letter case, and by nothing else among the ASCII
    values; without the field it is not requested. *)
Theorem diarization_is_requested_by_true (lower_unicode : str -> str)
  (req : Request.t) :
  match Request.diarize req with
  | None => requested lower_unicode req = false
  | Some value =>
      is_ascii value = true ->
      (requested lower_unicode req = true
       <-> exists t r u e : char,
             value = [t; r; u; e]
             /\ (t = 116 \/ t = 84)%N /\ (r = 114 \/ r = 82)%N
             /\ (u = 117 \/ u = 85)%N /\ (e = 101 \/ e = 69)%N)
  end.
Proof.
  unfold requested. destruct (Request.diarize req) as [v|]; [|reflexivity].
  intros A. unfold lower. rewrite A, str_eqb_eq. split.
  - destruct v as [|t [|r [|u [|e [|x v]]]]]; try discriminate.
    intros [= T R U E]. exists t, r, u, e.
    apply ascii_lower_letter in T, R, U, E; try lia.
    repeat split; lia.
  - intros (t & r & u & e & -> & T & R & U & E). simpl. unfold py. simpl.
    repeat f_equal; apply ascii_lower_letter; lia.
Qed.

Lemma diarization_is_requested_witness :
  requested (fun s => s) (upload "a.wav" (Some "TrUe"%string)) = true.
Proof.
  apply (diarization_is_requested_by_true (fun s => s)
           (upload "a.wav" (Some "TrUe"%string)));
    [reflexivity|].
  exists 84%N, 114%N, 85%N, 101%N. repeat split; auto.
Defined.

(** A request without diarization needs no token and no pipeline: its
    reply is the same whether a pipeline is loaded or not and whatever
    the token, [from_pretrained] and the pipeline would give, and it
    leaves the module variables as they are. *)
Theorem plain_request_ignores_the_pipeline (lower_unicode : str -> str)
  (g1 g2 : Globals.t) (files1 files2 : list str) (w1 w2 : World)
  (req : Request.t) :
  requested lower_unicode req = false ->
  getcwd w1 = getcwd w2 -> getpid w1 = getpid w2 ->
  (forall audio_path, transcribe w1 audio_path = transcribe w2 audio_path) ->
  reply_of (route lower_unicode g1 files1 w1 req)
  = reply_of (route lower_unicode g2 files2 w2 req)
  /\ globals_of (route lower_unicode g1 files1 w1 req) = g1.
Proof.
  intros R C P T.
  destruct (accepted req) as [file|] eqn:A.
  - rewrite !(route_accepted lower_unicode _ _ _ req file A).
    unfold reply_of, globals_of. cbv zeta. cbn [fst snd]. rewrite R.
    assert (E : temporary_path w1 file = temporary_path w2 file)
      by (unfold temporary_path; now rewrite C, P).
    rewrite E.
    destruct (FileStorage.save file) as [[e created]|]; cbn [fst snd];
      [now split|].
    unfold after_save. rewrite !load_pipeline_off, T.
    destruct (transcribe w2 (temporary_path w2 file)); now split.
  - unfold accepted in A. unfold route.
    destruct (Request.file req) as [f|]; [|now split].
    destruct (FileStorage.filename f) as [[|c n]|]; try discriminate.
    now split.
Qed.

Lemma plain_request_witness :
  reply_of (route (fun s => s) fresh [] tokenless (upload "a.wav" None))
  = reply_of (route (fun s => s) loaded [] working (upload "a.wav" None)).
Proof.
  apply (plain_request_ignores_the_pipeline (fun s => s) fresh loaded [] []
           tokenless working (upload "a.wav" None));
    reflexivity.
Defined.

(** A load is tried again after a failure: whatever happened before,
    a request for diarization whose upload is accepted and saved, served
    when the token is set, [from_pretrained] returns a pipeline and (on
    CUDA) [to] does not raise, leaves a pipeline in the module variable:
    the one that was there, or else the one just loaded. *)
Theorem complete_load_installs_the_pipeline (lower_unicode : str -> str)
  (g : Globals.t) (files : list str) (w : World) (req : Request.t)
  (file : FileStorage.t) (hf_token : str) (pipeline : Pyannote.Pipeline) :
  accepted req = Some file -> FileStorage.save file = None ->
  requested lower_unicode req = true ->
  environ w = Some hf_token -> hf_token <> [] ->
  from_pretrained w hf_token = inr (Some pipeline) ->
  (Globals.device g = py "cuda" -> to w = None) ->
  Globals.diarization_pipeline
    (globals_of (route lower_unicode g files w req))
  = Some match Globals.diarization_pipeline g with
         | Some earlier => earlier
         | None => pipeline
         end.
Proof.
  intros A S R E N F T.
  rewrite (route_accepted lower_unicode g files w req file A).
  unfold globals_of. cbv zeta. cbn [fst snd]. rewrite S. cbn [fst snd].
  rewrite after_save_globals, R. unfold load_pipeline.
  destruct (Globals.diarization_pipeline g) as [h|] eqn:P; [exact P|].
  rewrite E. destruct hf_token as [|c t]; [now elim N|]. simpl truthy.
  cbv iota. simpl negb. cbv iota. rewrite F.
  destruct (str_eqb (Globals.device g) (py "cuda")) eqn:D; [|reflexivity].
  apply str_eqb_eq in D. now rewrite (T D).
Qed.

Lemma complete_load_witness :
  Globals.diarization_pipeline
    (globals_of
       (route (fun s => s)
          (globals_of
             (route (fun s => s) fresh [] tokenless
                (upload "a.wav" (Some "true"%string))))
          [] working (upload "b.wav" (Some "true"%string))))
  = Some two_tracks.
Proof.
  rewrite (complete_load_installs_the_pipeline (fun s => s)
             (globals_of
                (route (fun s => s) fresh [] tokenless
                   (upload "a.wav" (Some "true"%string))))
             [] working (upload "b.wav" (Some "true"%string))
             (FileStorage.make (Some (py "b.wav")) None) (py "hf_token")
             two_tracks);
    try reflexivity.
  discriminate.
Defined.
